(** * Service Screener web GUI: a shallow embedding of the job runner and
      of the SSO device-flow handler

    Sources embedded here: [webapp/sso_auth.py] (class [SSOAuthHandler]) and
    [webapp/app.py] (the scan-job endpoints, [run_scan] and the SSO
    endpoints).

    Conventions of the embedding.
    - Python [str] is [string]; the texts the code inspects (URLs, region
      names, log lines of the scanner) are ASCII, so [lower] and [strip] act
      on ASCII letters and ASCII white space.
    - [Optional[T]] is [option T]; Python truth of an optional string
      ([None] and the empty string are false) is [truthy].
    - [datetime] values are integers (microseconds), [datetime.now()] is an
      explicit argument.
    - The identity provider, the scanner subprocess and the file system are
      outside the program: what they answer is an explicit argument of the
      operation that asks, and every request sent to the provider is logged
      in the state, so that a theorem can say that no request was sent.
    - An exception is a value [Exc e]; [try]/[except] is [catch]. *)

From Stdlib Require Import ZArith List Bool Ascii String Lia.
From Stdlib Require Import DecimalString Floats.SpecFloat.
From stdpp Require Import base strings gmap.

Import ListNotations.
Local Open Scope string_scope.
Local Open Scope Z_scope.

(** ** Python strings *)

Module PyStr.

Definition lower_ascii (c : ascii) : ascii :=
  let n := nat_of_ascii c in
  if (Nat.leb 65 n && Nat.leb n 90)%bool then ascii_of_nat (n + 32) else c.

(** [s.lower()] *)
Fixpoint lower (s : string) : string :=
  match s with
  | EmptyString => EmptyString
  | String c r => String (lower_ascii c) (lower r)
  end.

(** [s.startswith(p)] *)
Fixpoint startswith (p s : string) : bool :=
  match p, s with
  | EmptyString, _ => true
  | String a p', String b s' => (Ascii.eqb a b && startswith p' s')%bool
  | String _ _, EmptyString => false
  end.

(** [p in s] *)
Fixpoint contains (p s : string) : bool :=
  match s with
  | EmptyString => startswith p EmptyString
  | String _ r => (startswith p s || contains p r)%bool
  end.

Definition rev (s : string) : string :=
  string_of_list_ascii (List.rev (list_ascii_of_string s)).

(** [s.endswith(p)] *)
Definition endswith (p s : string) : bool := startswith (rev p) (rev s).

Definition is_space (c : ascii) : bool :=
  let n := nat_of_ascii c in
  (Nat.eqb n 32 || (Nat.leb 9 n && Nat.leb n 13))%bool.

Fixpoint lstrip (s : string) : string :=
  match s with
  | EmptyString => EmptyString
  | String c r => if is_space c then lstrip r else s
  end.

(** [s.strip()] *)
Definition strip (s : string) : string := rev (lstrip (rev (lstrip s))).

Fixpoint lstrip_char (x : ascii) (s : string) : string :=
  match s with
  | EmptyString => EmptyString
  | String c r => if Ascii.eqb c x then lstrip_char x r else s
  end.

(** [s.rstrip(x)] for a one-character [x] *)
Definition rstrip_char (x : ascii) (s : string) : string :=
  rev (lstrip_char x (rev s)).

(** [s.split(x)[0]] for a one-character [x] *)
Fixpoint before (x : ascii) (s : string) : string :=
  match s with
  | EmptyString => EmptyString
  | String c r => if Ascii.eqb c x then EmptyString else String c (before x r)
  end.

(** [s[:n]] *)
Definition upto (n : nat) (s : string) : string := substring 0 n s.

(** [sep.join(l)] *)
Fixpoint join (sep : string) (l : list string) : string :=
  match l with
  | [] => EmptyString
  | [x] => x
  | x :: r => x ++ sep ++ join sep r
  end.

(** Truth value of an [Optional[str]]. *)
Definition truthy (o : option string) : bool :=
  match o with
  | None => false
  | Some EmptyString => false
  | Some (String _ _) => true
  end.

End PyStr.

Import PyStr.

(** ** [SSOAuthHandler.detect_region_from_url] and [normalize_start_url] *)

Definition detect_region_from_url (start_url : string) : string :=
  let url_lower := lower start_url in
  if contains "awsapps.com" url_lower then
    if (contains ".us-east-1." url_lower || contains "us-east-1" url_lower)%bool then "us-east-1"
    else if (contains ".us-east-2." url_lower || contains "us-east-2" url_lower)%bool then "us-east-2"
    else if (contains ".us-west-2." url_lower || contains "us-west-2" url_lower)%bool then "us-west-2"
    else if (contains ".eu-west-1." url_lower || contains "eu-west-1" url_lower)%bool then "eu-west-1"
    else if (contains ".eu-central-1." url_lower || contains "eu-central-1" url_lower)%bool then "eu-central-1"
    else if (contains ".ap-southeast-1." url_lower || contains "ap-southeast-1" url_lower)%bool then "ap-southeast-1"
    else if (contains ".ap-northeast-1." url_lower || contains "ap-northeast-1" url_lower)%bool then "ap-northeast-1"
    else "us-east-1"
  else "us-east-1".

Definition normalize_start_url (start_url : string) : string :=
  let url := strip start_url in
  let url := rstrip_char "/"%char url in
  if negb (endswith "/start" url) then
    if contains "/start#" url then before "#"%char url
    else if negb (contains "/start" url) then url ++ "/start"
    else url
  else url.

(** ** Exceptions and the state-and-exception monad *)

Inductive exn_class :=
  | AuthorizationPendingException
  | SlowDownException
  | ExpiredTokenException
  | AccessDeniedException
  | ZeroDivisionError
  | OverflowError
  | KeyError
  | OSError
  | OtherException.

(** An exception object: its class and [str(e)]. *)
Record exn := Exn { exn_cls : exn_class; exn_str : string }.

(** [KeyError(k)] for a string key without quote characters: its [str] is
    the key between single quotes. *)
Definition key_error (k : string) : exn := Exn KeyError ("'" ++ k ++ "'").

(** What a block of statements ends with: it falls through with a value, it
    executes [return], or it raises. *)
Inductive res (A : Type) :=
  | Val (a : A)
  | Ret
  | Exc (e : exn).
Arguments Val {A} a.
Arguments Ret {A}.
Arguments Exc {A} e.

(** What the outside world answers to a request. *)
Inductive reply (A : Type) :=
  | Answer (a : A)
  | Fails (e : exn).
Arguments Answer {A} a.
Arguments Fails {A} e.

Definition M (S A : Type) : Type := S -> res A * S.

Definition ret {S A} (a : A) : M S A := fun s => (Val a, s).

Definition bind {S A B} (m : M S A) (k : A -> M S B) : M S B :=
  fun s =>
    match m s with
    | (Val a, s') => k a s'
    | (Ret, s') => (Ret, s')
    | (Exc e, s') => (Exc e, s')
    end.

Definition get {S} : M S S := fun s => (Val s, s).
Definition modify {S} (f : S -> S) : M S unit := fun s => (Val tt, f s).
Definition raise {S A} (e : exn) : M S A := fun s => (Exc e, s).
Definition return_ {S A} : M S A := fun s => (Ret, s).

(** [try: body except Exception as e: handler e] *)
Definition catch {S A} (body : M S A) (handler : exn -> M S A) : M S A :=
  fun s =>
    match body s with
    | (Exc e, s') => handler e s'
    | r => r
    end.

Definition when {S} (b : bool) (m : M S unit) : M S unit :=
  if b then m else ret tt.

Declare Scope monad_scope.
Delimit Scope monad_scope with monad.
Notation "x <~ m ;> k" := (bind m (fun x => k))
  (at level 200, m at level 100, k at level 200, right associativity,
   format "'[v' x  <~  m  ;> '/' k ']'") : monad_scope.
Notation "m ;> k" := (bind m (fun _ => k))
  (at level 200, k at level 200, right associativity,
   format "'[v' m  ;> '/' k ']'") : monad_scope.
Local Open Scope monad_scope.

(** ** The SSO handler ([webapp/sso_auth.py]) *)

(** A boto3 client object: the service it talks to and the [region_name] it
    was built with ([None] leaves the region to the ambient configuration).
    Constructing one sends nothing. *)
Record client := Client { c_service : string; c_region : option string }.

Definition boto3_client (service : string) (region_name : option string) : client :=
  Client service region_name.

(** The requests the handler sends to the identity provider. *)
Inductive api_call :=
  | RegisterClient (c : client) (clientName clientType : string)
  | StartDeviceAuthorization (c : client) (clientId clientSecret : option string)
      (startUrl : string)
  | CreateToken (c : client) (clientId clientSecret : option string)
      (grantType : string) (deviceCode : option string)
  | ListAccounts (c : client) (accessToken : option string)
  | ListAccountRoles (c : client) (accessToken : option string) (accountId : string)
  | GetRoleCredentials (c : client) (accessToken : option string)
      (accountId roleName : string).

(** The provider's responses. *)
Record register_response := RegisterResponse {
  clientId : string;
  clientSecret : string;
  clientSecretExpiresAt : Z }.

Record device_auth_response := DeviceAuthResponse {
  deviceCode : string;
  userCode : string;
  verificationUri : string;
  verificationUriComplete : string;
  expiresIn : Z;
  interval : Z }.

Record token_response := TokenResponse {
  accessToken : string;
  tokenExpiresIn : Z;
  tokenType : option string }.

Record role_credentials := RoleCredentials {
  accessKeyId : string;
  secretAccessKey : string;
  sessionToken : string;
  expiration : Z }.

Record SSOAuthHandler := Handler {
  sso_oidc_client : option client;
  sso_client : option client;
  client_id : option string;
  client_secret : option string;
  device_code : option string;
  access_token : option string;
  token_expiry : option Z;
  current_region : option string }.

(** [SSOAuthHandler.__init__] *)
Definition init_handler : SSOAuthHandler :=
  Handler None None None None None None None None.

(** The handler together with the log of the requests sent so far
    (most recent first). *)
Record world := World { sso : SSOAuthHandler; sent : list api_call }.

Definition set_sso_oidc_client v h :=
  Handler v (sso_client h) (client_id h) (client_secret h) (device_code h)
    (access_token h) (token_expiry h) (current_region h).
Definition set_sso_client v h :=
  Handler (sso_oidc_client h) v (client_id h) (client_secret h) (device_code h)
    (access_token h) (token_expiry h) (current_region h).
Definition set_client_id v h :=
  Handler (sso_oidc_client h) (sso_client h) v (client_secret h) (device_code h)
    (access_token h) (token_expiry h) (current_region h).
Definition set_client_secret v h :=
  Handler (sso_oidc_client h) (sso_client h) (client_id h) v (device_code h)
    (access_token h) (token_expiry h) (current_region h).
Definition set_device_code v h :=
  Handler (sso_oidc_client h) (sso_client h) (client_id h) (client_secret h) v
    (access_token h) (token_expiry h) (current_region h).
Definition set_access_token v h :=
  Handler (sso_oidc_client h) (sso_client h) (client_id h) (client_secret h)
    (device_code h) v (token_expiry h) (current_region h).
Definition set_token_expiry v h :=
  Handler (sso_oidc_client h) (sso_client h) (client_id h) (client_secret h)
    (device_code h) (access_token h) v (current_region h).
Definition set_current_region v h :=
  Handler (sso_oidc_client h) (sso_client h) (client_id h) (client_secret h)
    (device_code h) (access_token h) (token_expiry h) v.

(** [self.x = v] *)
Definition assign (f : SSOAuthHandler -> SSOAuthHandler) : M world unit :=
  modify (fun w => World (f (sso w)) (sent w)).

(** [self] *)
Definition self : M world SSOAuthHandler := fun w => (Val (sso w), w).

(** A provider call: the request is logged, then the provider's answer is
    returned or raised. *)
Definition call {A} (rq : api_call) (answer : reply A) : M world A :=
  fun w =>
    let w' := World (sso w) (rq :: sent w) in
    match answer with
    | Answer a => (Val a, w')
    | Fails e => (Exc e, w')
    end.

Definition get_sso_oidc_client (region : string) : M world client :=
  h <~ self ;>
  when (negb (bool_decide (current_region h = Some region)))
    (assign (set_sso_oidc_client None) ;>
     assign (set_sso_client None) ;>
     assign (set_client_id None) ;>
     assign (set_client_secret None) ;>
     assign (set_current_region (Some region))) ;>
  h <~ self ;>
  match sso_oidc_client h with
  | Some c => ret c
  | None =>
      let c := boto3_client "sso-oidc" (Some region) in
      assign (set_sso_oidc_client (Some c)) ;> ret c
  end.

Definition get_sso_client (region : option string) : M world client :=
  h <~ self ;>
  match sso_client h with
  | Some c => ret c
  | None =>
      let c := boto3_client "sso" region in
      assign (set_sso_client (Some c)) ;> ret c
  end.

Definition register_client (region : string) (answer : reply register_response)
  : M world register_response :=
  client <~ get_sso_oidc_client region ;>
  response <~ call (RegisterClient client "ServiceScreenerWebGUI" "public") answer ;>
  assign (set_client_id (Some (clientId response))) ;>
  assign (set_client_secret (Some (clientSecret response))) ;>
  ret response.

(** The dictionary [start_device_authorization] returns. *)
Record auth_info := AuthInfo {
  ai_device_code : string;
  ai_user_code : string;
  ai_verification_uri : string;
  ai_verification_uri_complete : string;
  ai_expires_in : Z;
  ai_interval : Z;
  ai_region : string }.

Definition start_device_authorization (start_url : string) (region : option string)
    (registration : reply register_response)
    (authorization : reply device_auth_response) : M world auth_info :=
  let normalized_url := normalize_start_url start_url in
  let region :=
    match region with
    | Some (String a r) => String a r
    | _ => detect_region_from_url start_url
    end in
  register_client region registration ;>
  client <~ get_sso_oidc_client region ;>
  h <~ self ;>
  response <~ call (StartDeviceAuthorization client (client_id h) (client_secret h)
                      normalized_url) authorization ;>
  assign (set_device_code (Some (deviceCode response))) ;>
  ret (AuthInfo (deviceCode response) (userCode response) (verificationUri response)
         (verificationUriComplete response) (expiresIn response) (interval response)
         region).

(** The dictionary [poll_for_token] returns: the success one, or a status
    with its message. *)
Inductive poll_result :=
  | PollSuccess (access_token : string) (expires_in : Z) (token_type : string)
  | PollStatus (status message : string).

Definition seconds (n : Z) : Z := 1000000 * n.

Definition poll_for_token (region : string) (now : Z) (answer : reply token_response)
  : M world poll_result :=
  h <~ self ;>
  if negb (truthy (device_code h)) then
    ret (PollStatus "error" "No device authorization in progress")
  else if negb (truthy (client_id h)) then
    ret (PollStatus "error" "Client not registered")
  else
    client <~ get_sso_oidc_client region ;>
    catch
      (h <~ self ;>
       response <~ call (CreateToken client (client_id h) (client_secret h)
                           "urn:ietf:params:oauth:grant-type:device_code"
                           (device_code h)) answer ;>
       assign (set_access_token (Some (accessToken response))) ;>
       assign (set_token_expiry (Some (now + seconds (tokenExpiresIn response)))) ;>
       ret (PollSuccess (accessToken response) (tokenExpiresIn response)
              (default "Bearer" (tokenType response))))
      (fun e =>
         match exn_cls e with
         | AuthorizationPendingException =>
             ret (PollStatus "pending" "Waiting for user to complete authorization")
         | SlowDownException =>
             ret (PollStatus "slow_down" "Polling too fast, slow down")
         | ExpiredTokenException =>
             assign (set_device_code None) ;>
             ret (PollStatus "expired" "Authorization expired, please start again")
         | AccessDeniedException =>
             assign (set_device_code None) ;>
             ret (PollStatus "denied" "Access denied by user")
         | _ => ret (PollStatus "error" (exn_str e))
         end).

Record account_info := AccountInfo {
  acc_accountId : string;
  acc_accountName : string;
  acc_emailAddress : string }.

Record role_info := RoleInfo {
  role_roleName : string;
  role_accountId : string }.

(** [for page in paginator.paginate(...): acc.extend(page.get(key, []))]
    inside [try ... except Exception: print(...)]: one request per page; a
    page that fails ends the loop and the items gathered so far are kept. *)
Fixpoint paginate {A} (rq : api_call) (pages : list (reply (option (list A))))
    (acc : list A) : M world (list A) :=
  match pages with
  | [] => ret acc
  | page :: rest =>
      catch
        (items <~ call rq page ;>
         paginate rq rest (acc ++ default [] items)%list)
        (fun _ => ret acc)
  end.

Definition list_accounts (region : string)
    (pages : list (reply (option (list account_info)))) : M world (list account_info) :=
  h <~ self ;>
  if negb (truthy (access_token h)) then ret []
  else
    client <~ get_sso_client (Some region) ;>
    paginate (ListAccounts client (access_token h)) pages [].

Definition list_account_roles (account_id region : string)
    (pages : list (reply (option (list role_info)))) : M world (list role_info) :=
  h <~ self ;>
  if negb (truthy (access_token h)) then ret []
  else
    client <~ get_sso_client (Some region) ;>
    paginate (ListAccountRoles client (access_token h) account_id) pages [].

(** The dictionary [get_role_credentials] returns: either the single key
    ['error'], or the four credential keys. *)
Inductive creds_result :=
  | CredsError (error : string)
  | Creds (access_key_id secret_access_key session_token : string) (expiration : Z).

Definition get_role_credentials (account_id role_name : string)
    (region : option string) (answer : reply role_credentials) : M world creds_result :=
  h <~ self ;>
  if negb (truthy (access_token h)) then ret (CredsError "Not authenticated")
  else
    client <~ get_sso_client region ;>
    catch
      (creds <~ call (GetRoleCredentials client (access_token h) account_id role_name)
                  answer ;>
       ret (Creds (accessKeyId creds) (secretAccessKey creds) (sessionToken creds)
              (expiration creds)))
      (fun e => ret (CredsError (exn_str e))).

(** [is_authenticated], with [datetime.now()] as [now]. *)
Definition is_authenticated (now : Z) (h : SSOAuthHandler) : bool :=
  match access_token h, token_expiry h with
  | Some (String _ _), Some expiry => now <? expiry
  | _, _ => false
  end.

Definition reset : M world unit :=
  assign (set_sso_oidc_client None) ;>
  assign (set_sso_client None) ;>
  assign (set_client_id None) ;>
  assign (set_client_secret None) ;>
  assign (set_device_code None) ;>
  assign (set_access_token None) ;>
  assign (set_token_expiry None) ;>
  assign (set_current_region None).

(** ** The SSO endpoints ([webapp/app.py]) *)

(** [SSOStartRequest]: [region: Optional[str] = "us-east-1"]. *)
Record SSOStartRequest := {
  start_url : string;
  region : option string }.

(** A JSON field of type [Optional[str]] as it arrives in a request body:
    the key is missing, or it is there with [null] or with a string. *)
Inductive json_field :=
  | Omitted
  | Null
  | Str (s : string).

(** The model validation of [SSOStartRequest]: a missing [region] takes the
    declared default, a [null] is a valid [Optional[str]] and stays [None]. *)
Definition parse_SSOStartRequest (url : string) (rg : json_field) : SSOStartRequest :=
  {| start_url := url;
     region := match rg with
               | Omitted => Some "us-east-1"
               | Null => None
               | Str s => Some s
               end |}.

Inductive sso_start_result :=
  | SsoStarted (user_code verification_uri verification_uri_complete : string)
      (expires_in : Z) (region message : string)
  | SsoStartError (message : string).

Definition sso_start (request : SSOStartRequest)
    (registration : reply register_response)
    (authorization : reply device_auth_response) : M world sso_start_result :=
  catch
    (info <~ start_device_authorization (start_url request) (region request)
               registration authorization ;>
     ret (SsoStarted (ai_user_code info) (ai_verification_uri info)
            (ai_verification_uri_complete info) (ai_expires_in info) (ai_region info)
            ("Please visit " ++ ai_verification_uri_complete info ++ " to complete login")))
    (fun e => ret (SsoStartError (exn_str e))).

Definition sso_poll (now : Z) (answer : reply token_response) : M world poll_result :=
  h <~ self ;>
  match current_region h with
  | Some (String a r) =>
      if negb (truthy (client_id h)) then
        ret (PollStatus "error" "SSO client not registered. Please restart SSO login.")
      else poll_for_token (String a r) now answer
  | _ =>
      ret (PollStatus "error" "No SSO login in progress. Please start SSO login first.")
  end.

(** [SSORoleCredentialsRequest] *)
Record SSORoleCredentialsRequest := {
  rc_account_id : string;
  rc_role_name : string;
  rc_region : option string }.

Definition sso_get_credentials (request : SSORoleCredentialsRequest) (now : Z)
    (answer : reply role_credentials) : M world creds_result :=
  h <~ self ;>
  if negb (is_authenticated now h) then ret (CredsError "Not authenticated")
  else
    get_role_credentials (rc_account_id request) (rc_role_name request)
      (rc_region request) answer.

(** [sso_status]: the two keys of the answer.  [expires_at] is the stored
    expiry, whether or not it has passed. *)
Definition sso_status (now : Z) (h : SSOAuthHandler) : bool * option Z :=
  (is_authenticated now h, token_expiry h).

(** What the two listing endpoints answer: the items, with the key
    ['error'] or without. *)
Inductive listing (A : Type) :=
  | ListingError (error : string) (items : list A)
  | Listing (items : list A).
Arguments ListingError {A} error items.
Arguments Listing {A} items.

Definition sso_list_accounts (now : Z)
    (pages : list (reply (option (list account_info)))) : M world (listing account_info) :=
  h <~ self ;>
  if negb (is_authenticated now h) then ret (ListingError "Not authenticated" [])
  else
    let region :=
      match current_region h with
      | Some (String a r) => String a r
      | _ => "us-east-1"
      end in
    accounts <~ list_accounts region pages ;>
    ret (Listing accounts).

Definition sso_list_roles (account_id : string) (now : Z)
    (pages : list (reply (option (list role_info)))) : M world (listing role_info) :=
  h <~ self ;>
  if negb (is_authenticated now h) then ret (ListingError "Not authenticated" [])
  else
    let region :=
      match current_region h with
      | Some (String a r) => String a r
      | _ => "us-east-1"
      end in
    roles <~ list_account_roles account_id region pages ;>
    ret (Listing roles).

(** ** Python numbers: [int / int], [float * int], [int(float)] *)

Module PyNum.

Definition binary64 := spec_float.

(** An [int] as the pair (mantissa, exponent 0): exact, whatever its size. *)
Definition exact (a : Z) : binary64 :=
  match a with
  | Z0 => S754_zero false
  | Zpos p => S754_finite false p 0
  | Zneg p => S754_finite true p 0
  end.

(** [float(a)] *)
Definition of_int (a : Z) : binary64 := binary_normalize 53 1024 a 0 false.

(** [a / b] on [int]s: the correctly rounded quotient, [ZeroDivisionError]
    for [b = 0], [OverflowError] beyond the largest float. *)
Definition truediv (a b : Z) : res binary64 :=
  if b =? 0 then Exc (Exn ZeroDivisionError "division by zero")
  else
    match SFdiv 53 1024 (exact a) (exact b) with
    | S754_infinity _ | S754_nan =>
        Exc (Exn OverflowError "integer division result too large for a float")
    | q => Val q
    end.

(** [x * n] for a float [x] and a small [int] [n] *)
Definition mul_int (x : binary64) (n : Z) : binary64 := SFmul 53 1024 x (of_int n).

(** [int(x)]: truncation towards zero. *)
Definition to_int (x : binary64) : res Z :=
  match x with
  | S754_zero _ => Val 0
  | S754_finite s m e =>
      let a := if 0 <=? e then Z.pos m * 2 ^ e else Z.pos m / 2 ^ (- e) in
      Val (if s then - a else a)
  | S754_infinity _ =>
      Exc (Exn OverflowError "cannot convert float infinity to integer")
  | S754_nan => Exc (Exn OtherException "cannot convert float NaN to integer")
  end.

(** [str(n)] for an [int] *)
Definition str (n : Z) : string := NilZero.string_of_int (Z.to_int n).

End PyNum.

(** ** Scan jobs ([webapp/app.py]) *)

Record ScanRequest := {
  regions : list string;
  services : list string;
  frameworks : option (list string);
  aws_profile : option string;
  sso_account_id : option string;
  sso_role_name : option string;
  use_sso : option bool }.

(** A job record, the dictionary stored in [scan_jobs]. *)
Record job := Job {
  job_id : string;
  status : string;
  progress : Z;
  current_task : string;
  created_at : Z;
  completed_at : option Z;
  report_path : option string;
  error : option string;
  request : ScanRequest }.

Definition set_status v j :=
  Job (job_id j) v (progress j) (current_task j) (created_at j) (completed_at j)
    (report_path j) (error j) (request j).
Definition set_progress v j :=
  Job (job_id j) (status j) v (current_task j) (created_at j) (completed_at j)
    (report_path j) (error j) (request j).
Definition set_current_task v j :=
  Job (job_id j) (status j) (progress j) v (created_at j) (completed_at j)
    (report_path j) (error j) (request j).
Definition set_completed_at v j :=
  Job (job_id j) (status j) (progress j) (current_task j) (created_at j) v
    (report_path j) (error j) (request j).
Definition set_report_path v j :=
  Job (job_id j) (status j) (progress j) (current_task j) (created_at j)
    (completed_at j) v (error j) (request j).
Definition set_error v j :=
  Job (job_id j) (status j) (progress j) (current_task j) (created_at j)
    (completed_at j) (report_path j) v (request j).

(** A Python [dict] with string keys: it keeps the order in which the keys
    were first inserted, and an assignment to a key that is there replaces
    the value in place. *)
Module PyDict.
Section Dict.
Context {V : Type}.

Definition t := list (string * V).

Fixpoint lookup (k : string) (d : t) : option V :=
  match d with
  | [] => None
  | (k', v) :: r => if String.eqb k k' then Some v else lookup k r
  end.

Fixpoint setitem (k : string) (v : V) (d : t) : t :=
  match d with
  | [] => [(k, v)]
  | (k', v') :: r =>
      if String.eqb k k' then (k', v) :: r else (k', v') :: setitem k v r
  end.

Definition values (d : t) : list V := map snd d.
Definition keys (d : t) : list string := map fst d.
End Dict.
Arguments t : clear implicits.
End PyDict.

(** What [subprocess.Popen] was called with. *)
Record popen_args := Popen {
  cmd : list string;
  env : gmap string string }.

(** The state of the application: the job table, the SSO handler with the
    log of requests sent to the provider, the subprocesses spawned so far
    (most recent first), and the record of every write to a job (the job
    as it stands after the write, most recent first). *)
Record app := App {
  scan_jobs : PyDict.t job;
  sso_handler : world;
  spawned : list popen_args;
  writes : list job }.

(** Calls into the SSO handler from the application. *)
Definition on_sso {A} (m : M world A) : M app A :=
  fun a =>
    let '(r, w) := m (sso_handler a) in
    (r, App (scan_jobs a) w (spawned a) (writes a)).

(** [start_scan]: [job_id] is [str(uuid.uuid4())[:8]], [now] is
    [datetime.now()].  The background task it registers is
    [run_scan job_id request], below. *)
Definition start_scan (request : ScanRequest) (job_id : string) (now : Z) : M app job :=
  let j := Job job_id "pending" 0 "Initializing..." now None None None request in
  modify (fun a => App (PyDict.setitem job_id j (scan_jobs a)) (sso_handler a)
                     (spawned a) (writes a)) ;>
  a <~ get ;>
  match PyDict.lookup job_id (scan_jobs a) with
  | Some j => ret j
  | None => raise (key_error job_id)
  end.

(** [get_scan_status]: [None] is the 404 answer. *)
Definition get_scan_status (job_id : string) (a : app) : option job :=
  PyDict.lookup job_id (scan_jobs a).

(** [list_scans] *)
Definition list_scans (a : app) : list job := PyDict.values (scan_jobs a).

(** [scan_jobs[job_id][field] = v] *)
Definition set_job (job_id : string) (f : job -> job) : M app unit :=
  a <~ get ;>
  match PyDict.lookup job_id (scan_jobs a) with
  | None => raise (key_error job_id)
  | Some j =>
      modify (fun a => App (PyDict.setitem job_id (f j) (scan_jobs a)) (sso_handler a)
                         (spawned a) (f j :: writes a))
  end.

(** *** [run_scan] *)

(** What the operating system hands to one run of [run_scan]. *)
Record dir_entry := DirEntry { de_name : string; de_is_dir : bool }.

(** The scanner subprocess as the runner sees it: the lines [readline]
    returns before the end of the stream, and the exit status. *)
Record process := Process { stdout_lines : list string; returncode : Z }.

Record scan_inputs := ScanInputs {
  sys_executable : string;
  main_py : string;                            (* str(SCREENER_ROOT / "main.py") *)
  environ : gmap string string;                (* os.environ *)
  now_auth : Z;                                (* the clock read by is_authenticated *)
  credentials : reply role_credentials;        (* the provider, if asked *)
  popen : reply process;                       (* subprocess.Popen *)
  now_done : Z;                                (* the clock at completion *)
  reports_dir : reply (option (list dir_entry)) (* adminlte/aws: absent, or its listing *)
}.

(** A pure computation that may raise, inside the monad. *)
Definition pure {S A} (r : res A) : M S A := fun s => (r, s).

(** [min(10 + int((services_scanned / total_services) * 80), 90)] *)
Definition scan_progress (services_scanned total_services : Z) : res Z :=
  match PyNum.truediv services_scanned total_services with
  | Val q =>
      match PyNum.to_int (PyNum.mul_int q 80) with
      | Val n => Val (Z.min (10 + n) 90)
      | Ret => Ret
      | Exc e => Exc e
      end
  | Ret => Ret
  | Exc e => Exc e
  end.

(** ["Processing" in line or "Scanning" in line] *)
Definition is_marker (line : string) : bool :=
  (contains "Processing" line || contains "Scanning" line)%bool.

(** The loop [for line in iter(process.stdout.readline, '')], with its two
    local variables. *)
Fixpoint read_output (job_id : string) (total_services : Z) (lines : list string)
    (services_scanned : Z) (output_lines : list string) : M app (Z * list string) :=
  match lines with
  | [] => ret (services_scanned, output_lines)
  | line :: rest =>
      if String.eqb line "" then ret (services_scanned, output_lines)
      else
        let output_lines := (output_lines ++ [strip line])%list in
        if is_marker line then
          let services_scanned := services_scanned + 1 in
          progress <~ pure (scan_progress services_scanned total_services) ;>
          set_job job_id (set_progress progress) ;>
          set_job job_id (set_current_task (upto 100 (strip line))) ;>
          read_output job_id total_services rest services_scanned output_lines
        else
          read_output job_id total_services rest services_scanned output_lines
  end.

Definition is_digit (c : ascii) : bool :=
  let n := nat_of_ascii c in (Nat.leb 48 n && Nat.leb n 57)%bool.

(** [s.isdigit()] *)
Definition isdigit (s : string) : bool :=
  match s with
  | EmptyString => false
  | _ => forallb is_digit (list_ascii_of_string s)
  end.

(** [l[-n:]] *)
Definition last_n {A} (n : nat) (l : list A) : list A :=
  skipn (length l - n) l.

(** An optional string that is true, as a string. *)
Definition nonempty (o : option string) : option string :=
  match o with
  | Some (String a r) => Some (String a r)
  | _ => None
  end.

(** [subprocess.Popen(cmd, ..., env=env, ...)] *)
Definition spawn (args : popen_args) (answer : reply process) : M app process :=
  fun a =>
    let a' := App (scan_jobs a) (sso_handler a) (args :: spawned a) (writes a) in
    match answer with
    | Answer p => (Val p, a')
    | Fails e => (Exc e, a')
    end.

Definition run_scan (job_id : string) (request : ScanRequest) (io : scan_inputs)
  : M app unit :=
  catch
    (set_job job_id (set_status "running") ;>
     set_job job_id (set_current_task "Preparing scan...") ;>
     set_job job_id (set_progress 5) ;>
     let cmd := [sys_executable io; main_py io;
                 "--regions"; join "," (regions request);
                 "--services"; join "," (services request)] in
     let cmd :=
       match frameworks request with
       | Some (f :: fs) => (cmd ++ ["--frameworks"; join "," (f :: fs)])%list
       | _ => cmd
       end in
     let env := environ io in
     a <~ get ;>
     env <~ (if (default false (use_sso request)
                 && is_authenticated (now_auth io) (sso (sso_handler a)))%bool
             then
               set_job job_id (set_current_task "Getting SSO credentials...") ;>
               match nonempty (sso_account_id request), nonempty (sso_role_name request) with
               | Some account_id, Some role_name =>
                   let region :=
                     match nonempty (current_region (sso (sso_handler a))) with
                     | Some r => r
                     | None => "us-east-1"
                     end in
                   creds <~ on_sso (get_role_credentials account_id role_name (Some region)
                                      (credentials io)) ;>
                   match creds with
                   | CredsError err =>
                       set_job job_id (set_status "failed") ;>
                       set_job job_id (set_error
                         (Some ("Failed to get SSO credentials: " ++ err))) ;>
                       return_
                   | Creds access_key_id secret_access_key session_token _ =>
                       let env := <["AWS_ACCESS_KEY_ID" := access_key_id]> env in
                       let env := <["AWS_SECRET_ACCESS_KEY" := secret_access_key]> env in
                       let env := <["AWS_SESSION_TOKEN" := session_token]> env in
                       let env := delete "AWS_PROFILE" env in
                       set_job job_id (set_current_task
                         ("SSO credentials obtained for account " ++ account_id)) ;>
                       ret env
                   end
               | _, _ =>
                   set_job job_id (set_status "failed") ;>
                   set_job job_id (set_error (Some
                     "SSO login detected but no account/role selected. Please select an account and role.")) ;>
                   return_
               end
             else
               match nonempty (aws_profile request) with
               | Some profile => ret (<["AWS_PROFILE" := profile]> env)
               | None => ret env
               end) ;>
     set_job job_id (set_current_task
       ("Scanning " ++ PyNum.str (Z.of_nat (length (services request))) ++ " services in "
        ++ PyNum.str (Z.of_nat (length (regions request))) ++ " regions...")) ;>
     set_job job_id (set_progress 10) ;>
     proc <~ spawn (Popen cmd env) (popen io) ;>
     let total_services := Z.of_nat (length (services request)) in
     out <~ read_output job_id total_services (stdout_lines proc) 0 [] ;>
     let output_lines := snd out in
     if returncode proc =? 0 then
       set_job job_id (set_status "completed") ;>
       set_job job_id (set_progress 100) ;>
       set_job job_id (set_current_task "Scan completed successfully") ;>
       set_job job_id (set_completed_at (Some (now_done io))) ;>
       match reports_dir io with
       | Fails e => raise e
       | Answer None => ret tt
       | Answer (Some entries) =>
           match find (fun d => (de_is_dir d && isdigit (de_name d))%bool) entries with
           | Some d =>
               set_job job_id (set_report_path
                 (Some ("/reports/" ++ de_name d ++ "/index.html")))
           | None => ret tt
           end
       end
     else
       set_job job_id (set_status "failed") ;>
       let error_output :=
         match output_lines with
         | [] => "No output"
         | _ => join (String "010"%char "") (last_n 10 output_lines)
         end in
       set_job job_id (set_error (Some
         ("Scan failed (exit code " ++ PyNum.str (returncode proc) ++ "). Last output:"
          ++ String "010"%char "" ++ error_output))))
    (fun e =>
       set_job job_id (set_status "failed") ;>
       set_job job_id (set_error (Some (exn_str e)))).

(** *** [websocket_scan_progress]

    One element of [ticks] per turn of the [while True] loop: the job table
    as it stands when that turn reads it.  The result is what was sent.
    The loop ends with the client ([ticks] runs out) or at a terminal
    status. *)
Definition is_terminal (j : job) : bool :=
  (String.eqb (status j) "completed" || String.eqb (status j) "failed")%bool.

Fixpoint websocket_scan_progress (job_id : string) (ticks : list (PyDict.t job))
  : list job :=
  match ticks with
  | [] => []
  | jobs :: rest =>
      match PyDict.lookup job_id jobs with
      | Some j =>
          j :: (if is_terminal j then [] else websocket_scan_progress job_id rest)
      | None => websocket_scan_progress job_id rest
      end
  end.

(** *** [list_reports] *)

(** An entry of [adminlte/aws] as [list_reports] looks at it: its name,
    whether it is a directory and, when it holds an [index.html], the ISO
    text of that file's modification time. *)
Record report_entry := ReportEntry {
  re_name : string;
  re_is_dir : bool;
  re_index : option string }.

Record report := Report {
  r_account_id : string;
  r_path : string;
  r_created_at : string }.

(** [sorted(l, key=key, reverse=True)] on string keys: the stable sort,
    largest key first; items with equal keys keep their order. *)
Fixpoint insert_reverse {A} (key : A -> string) (x : A) (l : list A) : list A :=
  match l with
  | [] => [x]
  | y :: r => if String.ltb (key x) (key y) then y :: insert_reverse key x r else x :: l
  end.

Definition sorted_reverse {A} (key : A -> string) (l : list A) : list A :=
  fold_right (insert_reverse key) [] l.

(** [list_reports]: [listing] is what the file system says of the report
    directory: it raises, it does not exist, or its entries in the order of
    [iterdir()]. *)
Definition list_reports (listing : reply (option (list report_entry))) : res (list report) :=
  match listing with
  | Fails e => Exc e
  | Answer None => Val []
  | Answer (Some entries) =>
      let reports :=
        flat_map (fun d =>
          if (re_is_dir d && isdigit (re_name d))%bool then
            match re_index d with
            | Some mtime =>
                [Report (re_name d) ("/reports/" ++ re_name d ++ "/index.html") mtime]
            | None => []
            end
          else []) entries in
      Val (sorted_reverse r_created_at reports)
  end.

(** ** Vocabulary of the statements *)

(** The regions [detect_region_from_url] knows, in the order it tries them. *)
Definition known_regions : list string :=
  ["us-east-1"; "us-east-2"; "us-west-2"; "eu-west-1"; "eu-central-1";
   "ap-southeast-1"; "ap-northeast-1"].

(** The URL names the known region [r] and no other known region
    (letter case aside). *)
Definition names_only (r url : string) : bool :=
  (existsb (String.eqb r) known_regions
   && contains r (lower url)
   && forallb (fun r' => String.eqb r' r || negb (contains r' (lower url)))
        known_regions)%bool.

(** The region [start_device_authorization] works with: the one passed, or,
    when that is [None] or empty, the one read off the URL. *)
Definition requested_region (start_url : string) (region : option string) : string :=
  match nonempty region with
  | Some r => r
  | None => detect_region_from_url start_url
  end.


(** The requests sent since the log was [before] (most recent first). *)
Definition sent_since (before after : list api_call) : list api_call :=
  firstn (length after - length before) after.


(** A handler that went through one complete [start_device_authorization]
    in us-east-1. *)
Definition started_world : world :=
  snd (start_device_authorization "https://acme.awsapps.com/start" (Some "us-east-1")
         (Answer (RegisterResponse "client-1" "secret-1" 100))
         (Answer (DeviceAuthResponse "device-1" "ABCD-EFGH" "https://device.sso/"
                    "https://device.sso/?user_code=ABCD-EFGH" 600 5))
         (World init_handler [])).

(** The handler after [started_world], once the user approved and a poll
    obtained a token at time 0, valid for an hour. *)
Definition authorized_world : world :=
  snd (poll_for_token "us-east-1" 0 (Answer (TokenResponse "token-1" 3600 None))
         started_world).

(** The ["status"] of what a poll returned. *)
Definition outcome (r : res poll_result) : string :=
  match r with
  | Val (PollStatus s _) => s
  | Val (PollSuccess _ _ _) => "success"
  | _ => ""
  end.

(** The answers by which [poll_for_token] and [sso_poll] refuse to poll
    because there is no session or no registered client. *)
Definition no_session_error (r : res poll_result) : bool :=
  match r with
  | Val (PollStatus s m) =>
      (String.eqb s "error"
       && existsb (String.eqb m)
            ["No device authorization in progress";
             "Client not registered";
             "No SSO login in progress. Please start SSO login first.";
             "SSO client not registered. Please restart SSO login."])%bool
  | _ => false
  end.

(** The device-authorization session held by the handler. *)
Definition session (h : SSOAuthHandler)
  : option string * option string * option string * option string :=
  (client_id h, client_secret h, device_code h, current_region h).

(** The operations on the handler other than starting an authorization. *)
Inductive handler_op :=
  | OpPollForToken (region : string) (now : Z) (answer : reply token_response)
  | OpSsoPoll (now : Z) (answer : reply token_response)
  | OpListAccounts (region : string) (pages : list (reply (option (list account_info))))
  | OpListAccountRoles (account_id region : string)
      (pages : list (reply (option (list role_info))))
  | OpGetRoleCredentials (account_id role_name : string) (region : option string)
      (answer : reply role_credentials)
  | OpSsoGetCredentials (request : SSORoleCredentialsRequest) (now : Z)
      (answer : reply role_credentials)
  | OpReset.

Definition run_op (op : handler_op) (w : world) : world :=
  match op with
  | OpPollForToken region now answer => snd (poll_for_token region now answer w)
  | OpSsoPoll now answer => snd (sso_poll now answer w)
  | OpListAccounts region pages => snd (list_accounts region pages w)
  | OpListAccountRoles account_id region pages =>
      snd (list_account_roles account_id region pages w)
  | OpGetRoleCredentials account_id role_name region answer =>
      snd (get_role_credentials account_id role_name region answer w)
  | OpSsoGetCredentials request now answer =>
      snd (sso_get_credentials request now answer w)
  | OpReset => snd (reset w)
  end.

Definition run_ops (ops : list handler_op) (w : world) : world :=
  fold_left (fun w op => run_op op w) ops w.

(** The application state after the job [j'] was written under [job_id]. *)
Definition after_write (job_id : string) (j' : job) (a : app) : app :=
  App (PyDict.setitem job_id j' (scan_jobs a)) (sso_handler a) (spawned a)
    (j' :: writes a).

(** A request that names a profile and an SSO account and role. *)
Definition both_selectors (rq : ScanRequest) : bool :=
  (truthy (aws_profile rq) && truthy (sso_account_id rq) && truthy (sso_role_name rq))%bool.

Definition both_request : ScanRequest :=
  {| regions := ["us-east-1"]; services := ["s3"; "ec2"]; frameworks := Some [];
     aws_profile := Some "dev"; sso_account_id := Some "111122223333";
     sso_role_name := Some "Auditor"; use_sso := Some true |}.

(** The application as it starts: no job, a fresh handler. *)
Definition empty_app : app := App [] (World init_handler []) [] [].

(** A record as [start_scan] creates it. *)
Definition pending_job (request : ScanRequest) (job_id : string) (now : Z) : job :=
  Job job_id "pending" 0 "Initializing..." now None None None request.

(** Creation times from the most recent to the oldest. *)
Fixpoint descending (l : list Z) : bool :=
  match l with
  | a :: (b :: _) as r => (b <=? a) && descending r
  | _ => true
  end.

Definition most_recent_first (l : list job) : bool := descending (map created_at l).

(** A sequence of submissions: request, job id, time. *)
Definition submit_all (subs : list (ScanRequest * string * Z)) (a : app) : app :=
  fold_left (fun a s => snd (start_scan (fst (fst s)) (snd (fst s)) (snd s) a)) subs a.

(** The assignments [run_scan] makes to a job record. *)
Inductive field_setter : (job -> job) -> Prop :=
  | fs_status v : field_setter (set_status v)
  | fs_progress v : field_setter (set_progress v)
  | fs_current_task v : field_setter (set_current_task v)
  | fs_completed_at v : field_setter (set_completed_at v)
  | fs_report_path v : field_setter (set_report_path v)
  | fs_error v : field_setter (set_error v).

(** What happens to the application, in order: a job is submitted, or the
    runner of a job runs (from its first statement to its last). *)
Inductive event :=
  | Submit (request : ScanRequest) (job_id : string) (now : Z)
  | Run (job_id : string) (request : ScanRequest) (io : scan_inputs).

Definition apply_event (a : app) (ev : event) : app :=
  match ev with
  | Submit request job_id now => snd (start_scan request job_id now a)
  | Run job_id request io => snd (run_scan job_id request io a)
  end.

Definition after_events (evs : list event) : app := fold_left apply_event evs empty_app.

(** The job ids and times of the submissions among the events, in order. *)
Definition submissions (evs : list event) : list (string * Z) :=
  flat_map (fun ev => match ev with
                      | Submit _ job_id now => [(job_id, now)]
                      | Run _ _ _ => []
                      end) evs.

(** The strings of a list are pairwise different. *)
Fixpoint distinct (l : list string) : bool :=
  match l with
  | [] => true
  | x :: r => (negb (existsb (String.eqb x) r) && distinct r)%bool
  end.

(** What identifies a job record and never changes: its id, its creation
    time and its request. *)
Definition identity (j : job) : string * Z * ScanRequest :=
  (job_id j, created_at j, request j).

(** The frame of a run of the job [id]: the table has the same keys in the
    same order, every record keeps its identity, and the records of the
    other jobs are untouched. *)
Definition frame (id : string) (a a' : app) : Prop :=
  PyDict.keys (scan_jobs a') = PyDict.keys (scan_jobs a)
  /\ map identity (PyDict.values (scan_jobs a')) = map identity (PyDict.values (scan_jobs a))
  /\ forall k, k <> id -> PyDict.lookup k (scan_jobs a') = PyDict.lookup k (scan_jobs a).

(** Inputs of a run in which the scanner prints two marker lines among
    others and exits with status 0, and the report directory holds the
    report of one account. *)
Definition plain_inputs : scan_inputs :=
  ScanInputs "/usr/bin/python3" "/opt/screener/main.py" ∅ 0
    (Fails (Exn OtherException "not asked"))
    (Answer (Process ["Processing s3" ++ String "010"%char "";
                      "... 12 buckets" ++ String "010"%char "";
                      "Scanning ec2" ++ String "010"%char ""] 0))
    5000
    (Answer (Some [DirEntry "res" true; DirEntry "111122223333" true])).

(** The request selects SSO and the handler holds a valid token, but the
    credentials cannot be had: the account or the role is missing, or the
    provider refuses. *)
Definition credentials_unavailable (request : ScanRequest) (io : scan_inputs) : bool :=
  (negb (truthy (sso_account_id request) && truthy (sso_role_name request))
   || match credentials io with
      | Fails _ => true
      | Answer _ => false
      end)%bool.

(** A handler that holds a token valid until time 3600 s, and an
    application with one pending job of [both_request]. *)
Definition authorized_app : app :=
  snd (start_scan both_request "1a2b3c4d" 1000
         (App [] authorized_world [] [])).

(** An application with one pending job of [both_request] and a handler
    that never logged in. *)
Definition submitted_app : app :=
  snd (start_scan both_request "1a2b3c4d" 1000 empty_app).

(** The application state with another handler state, and with one more
    spawned process. *)
Definition with_sso (w : world) (a : app) : app :=
  App (scan_jobs a) w (spawned a) (writes a).

Definition with_spawned (args : popen_args) (a : app) : app :=
  App (scan_jobs a) (sso_handler a) (args :: spawned a) (writes a).

(** The lines the loop of [run_scan] reads: those before the first empty
    one. *)
Fixpoint consumed (lines : list string) : list string :=
  match lines with
  | [] => []
  | line :: rest => if String.eqb line "" then [] else line :: consumed rest
  end.

(** The number of marker lines among them. *)
Definition markers (lines : list string) : Z :=
  Z.of_nat (length (List.filter is_marker (consumed lines))).

(** The progress formula on exact numbers:
    min(10 + floor((k / n) * 80), 90). *)
Definition exact_progress (k n : Z) : Z := Z.min (10 + (80 * k) / n) 90.

(** The float expression of the code gives the exact value at [k], [n]. *)
Definition progress_agrees (n k : Z) : bool :=
  match scan_progress k n with
  | Val p => p =? exact_progress k n
  | _ => false
  end.

(** The range of service counts and marker-line counts over which the float
    expression is evaluated against the exact formula. *)
Definition max_services : nat := 100.
Definition max_markers : nat := 200.

(** The writes to job records made since the log was [before], in the
    order in which they were made. *)
Definition written_since (before after : list job) : list job :=
  List.rev (firstn (length after - length before) after).

(** The counters [k + 1, ..., k + m]. *)
Definition counters (k : Z) (m : nat) : list Z :=
  map (fun i => k + Z.of_nat i) (seq 1 m).

(** A sequence of numbers that never goes down. *)
Fixpoint non_decreasing (l : list Z) : bool :=
  match l with
  | a :: (b :: _) as r => (a <=? b) && non_decreasing r
  | _ => true
  end.

(** The items of the pages a paginator yields before the first page that
    fails, and the number of page requests that takes. *)
Fixpoint gathered {A} (pages : list (reply (option (list A)))) : list A :=
  match pages with
  | Answer items :: rest => (default [] items ++ gathered rest)%list
  | _ => []
  end.

Fixpoint fetched {A} (pages : list (reply (option (list A)))) : nat :=
  match pages with
  | [] => 0
  | Answer _ :: rest => S (fetched rest)
  | Fails _ :: _ => 1
  end.

(** The job record after some assignments of the loop: only the progress
    and the task text may differ. *)
Definition same_but_progress (j j' : job) : Prop :=
  exists p t, j' = set_current_task t (set_progress p j).

(** The test by which [run_scan] takes its SSO branch. *)
Definition sso_branch (request : ScanRequest) (io : scan_inputs) (a : app) : bool :=
  (default false (use_sso request)
   && is_authenticated (now_auth io) (sso (sso_handler a)))%bool.

(** The directory of the report tree that [run_scan] takes for the report:
    the first entry that is a directory with an all-digit name. *)
Definition first_report (entries : list dir_entry) : option string :=
  option_map (fun d => "/reports/" ++ de_name d ++ "/index.html")
    (find (fun d => (de_is_dir d && isdigit (de_name d))%bool) entries).

(** A request that names a profile and does not select SSO, and inputs of
    a run whose scanner prints two marker lines and exits with status 2. *)
Definition profile_request : ScanRequest :=
  {| regions := ["us-east-1"]; services := ["s3"; "ec2"]; frameworks := None;
     aws_profile := Some "dev"; sso_account_id := None; sso_role_name := None;
     use_sso := Some false |}.

Definition failing_inputs : scan_inputs :=
  ScanInputs "/usr/bin/python3" "/opt/screener/main.py" ∅ 0
    (Fails (Exn OtherException "not asked"))
    (Answer (Process ["Processing s3" ++ String "010"%char "";
                      "  AccessDenied  " ++ String "010"%char ""] 2))
    5000
    (Answer None).

(** An application with one pending job of [profile_request]. *)
Definition profile_app : app :=
  snd (start_scan profile_request "5e6f7a8b" 2000 empty_app).

(** Texts from the largest to the smallest, in the order of Python's string
    comparison: no text is followed by a larger one. *)
Fixpoint descending_text (l : list string) : bool :=
  match l with
  | a :: (b :: _) as r => (negb (String.ltb a b) && descending_text r)%bool
  | _ => true
  end.

(** The report that [list_reports] makes of a directory entry, if any. *)
Definition report_of (d : report_entry) : option report :=
  if (re_is_dir d && isdigit (re_name d))%bool then
    option_map (Report (re_name d) ("/reports/" ++ re_name d ++ "/index.html"))
      (re_index d)
  else None.

(** A computation keeps the relation [R] between the state it starts in and
    the state it ends in. *)
Definition preserves (R : app -> app -> Prop) {A : Type} (m : M app A) : Prop :=
  forall a, R a (snd (m a)).

(** * Properties *)

(** ** Strings *)

Section StringFacts.

Lemma startswith_spec p s :
  startswith p s = true <-> exists b, s = p ++ b.
Proof.
  revert s. induction p as [|a p IH]; intros s; simpl.
  - split; [intros _; exists s; reflexivity | reflexivity].
  - destruct s as [|c s].
    + split; [discriminate | intros [b Hb]; discriminate].
    + rewrite andb_true_iff, Ascii.eqb_eq, IH. split.
      * intros [-> [b ->]]. exists b. reflexivity.
      * intros [b Hb]. injection Hb as -> ->. split; [reflexivity | exists b; reflexivity].
Qed.

Lemma contains_spec p s :
  contains p s = true <-> exists a b, s = a ++ p ++ b.
Proof.
  induction s as [|c s IH]; simpl.
  - rewrite startswith_spec. split.
    + intros [b Hb]. exists "", b. exact Hb.
    + intros [a [b Hab]]. destruct a; [exists b; exact Hab | discriminate].
  - rewrite orb_true_iff, IH. change (startswith p (String c s) = true \/
      (exists a b, s = a ++ p ++ b) <-> exists a b, String c s = a ++ p ++ b).
    rewrite startswith_spec. split.
    + intros [[b Hb] | [a [b Hab]]].
      * exists "", b. exact Hb.
      * exists (String c a), b. simpl. rewrite Hab. reflexivity.
    + intros [a [b Hab]]. destruct a as [|c' a]; simpl in Hab.
      * left. exists b. exact Hab.
      * right. injection Hab as _ ->. exists a, b. reflexivity.
Qed.

Lemma app_cons x (a b : string) : String x a ++ b = String x (a ++ b).
Proof. reflexivity. Qed.

Lemma string_app_assoc (a b c : string) : (a ++ b) ++ c = a ++ b ++ c.
Proof.
  induction a as [|x a IH]; [reflexivity|].
  rewrite !app_cons, IH. reflexivity.
Qed.

(** A text that contains [q] contains every part of [q]. *)
Lemma contains_trans p q s :
  contains p q = true -> contains q s = true -> contains p s = true.
Proof.
  rewrite !contains_spec. intros [a [b ->]] [a' [b' ->]].
  exists (a' ++ a), (b ++ b'). rewrite !string_app_assoc. reflexivity.
Qed.

Lemma lower_app a b : lower (a ++ b) = lower a ++ lower b.
Proof.
  induction a as [|x a IH]; [reflexivity|].
  rewrite !app_cons. simpl. rewrite IH, app_cons. reflexivity.
Qed.

Lemma lower_ascii_idem c : lower_ascii (lower_ascii c) = lower_ascii c.
Proof. destruct c as [[] [] [] [] [] [] [] []]; reflexivity. Qed.

Lemma lower_idem s : lower (lower s) = lower s.
Proof.
  induction s as [|c s IH]; simpl; [reflexivity|].
  rewrite lower_ascii_idem, IH. reflexivity.
Qed.

End StringFacts.

(** ** Region detection *)

Lemma dotted_absent r u :
  contains r u = false -> contains ("." ++ r ++ ".") u = false.
Proof.
  intros H. destruct (contains ("." ++ r ++ ".") u) eqn:E; [|reflexivity].
  rewrite <- H. symmetry. apply contains_trans with (q := "." ++ r ++ "."); [|exact E].
  apply contains_spec. exists ".", ".". reflexivity.
Qed.

(** C9, as stated, fails: a URL may name eu-west-1 and no other region and
    still resolve to us-east-1, because it is not an awsapps.com URL. *)
Lemma detect_region_other_host :
  names_only "eu-west-1" "https://portal.eu-west-1.example.com/start" = true
  /\ detect_region_from_url "https://portal.eu-west-1.example.com/start" <> "eu-west-1".
Proof. split; [reflexivity | discriminate]. Qed.

(** C9, amended: for an awsapps.com URL (letter case aside) that names exactly
    one of the regions the detector knows, detection resolves to that
    region. *)
Theorem detect_region_unique url r :
  contains "awsapps.com" (lower url) = true ->
  names_only r url = true ->
  detect_region_from_url url = r.
Proof.
  unfold names_only, detect_region_from_url, known_regions.
  intros Haws H. rewrite Haws. set (u := lower url) in *. clearbody u.
  apply andb_true_iff in H as [H Hothers]. apply andb_true_iff in H as [Hin Hr].
  simpl in Hin, Hothers.
  repeat (apply andb_true_iff in Hothers as [?H Hothers]).
  repeat (apply orb_true_iff in Hin as [Hin | Hin];
          [apply String.eqb_eq in Hin; subst r; simpl in *;
           repeat match goal with
                  | H : negb (contains ?a u) = true |- _ =>
                      apply negb_true_iff in H;
                      let H' := fresh in
                      pose proof (dotted_absent a u H) as H';
                      cbv [String.append] in H';
                      rewrite ?H', ?H; clear H H'
                  end;
           rewrite Hr, ?orb_true_r; reflexivity
          |]).
  discriminate Hin.
Qed.

Lemma detect_region_unique_witness :
  let url := "https://d-12345.EU-West-1.awsapps.com/start" in
  contains "awsapps.com" (lower url) = true
  /\ names_only "eu-west-1" url = true
  /\ detect_region_from_url url = "eu-west-1".
Proof.
  split; [reflexivity|]. split; [reflexivity|].
  apply (detect_region_unique "https://d-12345.EU-West-1.awsapps.com/start" "eu-west-1");
    reflexivity.
Defined.

(** ** The SSO handler *)

(** Unfolding of the monad's operations. *)
Ltac run :=
  cbv [bind ret get modify raise return_ catch when assign self call pure] in *;
  simpl in *.

(** What [get_sso_oidc_client] does to the handler: afterwards the current
    region is the requested one and an OIDC client exists; the device code
    and the token are untouched; nothing is sent; and if the region was the
    current one already, the registered client is kept. *)
Lemma get_sso_oidc_client_spec region w :
  exists c h',
    get_sso_oidc_client region w = (Val c, World h' (sent w))
    /\ current_region h' = Some region
    /\ sso_oidc_client h' = Some c
    /\ device_code h' = device_code (sso w)
    /\ access_token h' = access_token (sso w)
    /\ token_expiry h' = token_expiry (sso w)
    /\ (current_region (sso w) = Some region ->
        client_id h' = client_id (sso w) /\ client_secret h' = client_secret (sso w))
    /\ (current_region (sso w) <> Some region ->
        client_id h' = None /\ client_secret h' = None).
Proof.
  destruct w as [h s]. unfold get_sso_oidc_client. run.
  destruct (bool_decide (current_region h = Some region)) eqn:E; simpl.
  - apply bool_decide_eq_true in E.
    destruct (sso_oidc_client h) as [c|] eqn:Ec; simpl.
    + exists c, h. repeat split; auto; intros; contradiction.
    + eexists _, _. split; [reflexivity|]. simpl. repeat split; auto; intros; contradiction.
  - apply bool_decide_eq_false in E.
    eexists _, _. split; [reflexivity|]. simpl. repeat split; auto; intros; contradiction.
Qed.

(** Every run of [start_device_authorization], step by step: the client
    registration is sent first, whatever the handler's state; if it is
    answered, the handler holds the new client id and secret and the device
    authorization is sent with them; if that is answered too, the device code
    is stored and the resolved region reported. *)
Lemma start_device_authorization_spec url region reg auth w :
  let rg := requested_region url region in
  let r := fst (start_device_authorization url region reg auth w) in
  let w' := snd (start_device_authorization url region reg auth w) in
  exists c,
    current_region (sso w') = Some rg
    /\ access_token (sso w') = access_token (sso w)
    /\ token_expiry (sso w') = token_expiry (sso w)
    /\ match reg with
       | Fails e =>
           r = Exc e
           /\ sent w' = RegisterClient c "ServiceScreenerWebGUI" "public" :: sent w
           /\ device_code (sso w') = device_code (sso w)
       | Answer resp =>
           client_id (sso w') = Some (clientId resp)
           /\ client_secret (sso w') = Some (clientSecret resp)
           /\ sent w' =
                StartDeviceAuthorization c (Some (clientId resp)) (Some (clientSecret resp))
                  (normalize_start_url url)
                :: RegisterClient c "ServiceScreenerWebGUI" "public" :: sent w
           /\ match auth with
              | Fails e => r = Exc e /\ device_code (sso w') = device_code (sso w)
              | Answer d =>
                  r = Val (AuthInfo (deviceCode d) (userCode d) (verificationUri d)
                             (verificationUriComplete d) (expiresIn d) (interval d) rg)
                  /\ device_code (sso w') = Some (deviceCode d)
              end
       end.
Proof.
  intros rg r w'. subst r w'.
  assert (Hrg : match region with
                | Some (String a r) => String a r
                | _ => detect_region_from_url url
                end = rg).
  { subst rg. unfold requested_region. destruct region as [[|a r]|]; reflexivity. }
  unfold start_device_authorization. rewrite Hrg. clearbody rg. clear Hrg.
  destruct w as [h s]. unfold register_client, get_sso_oidc_client. run.
  destruct (bool_decide (current_region h = Some rg)) eqn:E; simpl.
  - apply bool_decide_eq_true in E.
    destruct (sso_oidc_client h) as [c|] eqn:Ec; simpl;
      destruct reg as [resp|e]; simpl;
      rewrite ?E, ?bool_decide_eq_true_2 by reflexivity; simpl; rewrite ?Ec; simpl;
      try destruct auth as [d|e]; simpl; eexists; repeat split; eauto.
  - destruct reg as [resp|e]; simpl;
      rewrite ?bool_decide_eq_true_2 by reflexivity; simpl;
      try destruct auth as [d|e]; simpl; eexists; repeat split; eauto.
Qed.




Lemma sso_start_spec rq reg auth w :
  let out := sso_start rq reg auth w in
  let rg := requested_region (start_url rq) (region rq) in
  current_region (sso (snd out)) = Some rg
  /\ match fst out with
     | Val (SsoStarted _ _ _ _ r _) => r = rg
     | Val (SsoStartError _) => True
     | _ => False
     end.
Proof.
  intros out rg. subst out rg.
  destruct (start_device_authorization_spec (start_url rq) (region rq) reg auth w)
    as (c & Hreg & _ & _ & H).
  unfold sso_start. run.
  destruct (start_device_authorization (start_url rq) (region rq) reg auth w)
    as [r w'] eqn:E. simpl in *.
  destruct reg as [resp|e].
  - destruct H as (_ & _ & _ & H). destruct auth as [d|e]; destruct H as [-> _]; simpl; auto.
  - destruct H as (-> & _). simpl. auto.
Qed.

(** C10, as stated, fails: a [null] region is a valid [Optional[str]], it is
    not replaced by the default, and the region is then read off the URL. *)
Lemma sso_start_null_region_infers :
  let rq := parse_SSOStartRequest "https://d-1.eu-west-1.awsapps.com/start" Null in
  truthy (region rq) = false
  /\ fst (sso_start rq
            (Answer (RegisterResponse "client-1" "secret-1" 100))
            (Answer (DeviceAuthResponse "device-1" "ABCD-EFGH" "https://device.sso/"
                       "https://device.sso/?user_code=ABCD-EFGH" 600 5))
            (World init_handler []))
     = Val (SsoStarted "ABCD-EFGH" "https://device.sso/"
              "https://device.sso/?user_code=ABCD-EFGH" 600 "eu-west-1"
              "Please visit https://device.sso/?user_code=ABCD-EFGH to complete login").
Proof. split; reflexivity. Qed.

(** C10, amended: a request that omits the region gets "us-east-1", and the
    handler then works in us-east-1 whatever the URL says; a request that
    sends the region as [null] or as the empty string gets the region read
    off the URL.  In each case the region reported on success is the one the
    handler works in. *)
Theorem sso_start_region url reg auth w :
  let out rg := sso_start (parse_SSOStartRequest url rg) reg auth w in
  let after rg := current_region (sso (snd (out rg))) in
  region (parse_SSOStartRequest url Omitted) = Some "us-east-1"
  /\ after Omitted = Some "us-east-1"
  /\ after Null = Some (detect_region_from_url url)
  /\ after (Str "") = Some (detect_region_from_url url)
  /\ forall rg,
       match fst (out rg) with
       | Val (SsoStarted _ _ _ _ r _) => after rg = Some r
       | Val (SsoStartError _) => True
       | _ => False
       end.
Proof.
  intros out after. subst out after. simpl.
  split; [reflexivity|].
  split; [apply (sso_start_spec (parse_SSOStartRequest url Omitted))|].
  split; [apply (sso_start_spec (parse_SSOStartRequest url Null))|].
  split; [apply (sso_start_spec (parse_SSOStartRequest url (Str "")))|].
  intros rg.
  destruct (sso_start_spec (parse_SSOStartRequest url rg) reg auth w) as [H1 H2].
  simpl in *.
  destruct (fst (sso_start (parse_SSOStartRequest url rg) reg auth w)) as [[]| |];
    try exact H2. rewrite H1, H2. reflexivity.
Qed.

Lemma paginate_sso {A} rq (pages : list (reply (option (list A)))) acc w :
  sso (snd (paginate rq pages acc w)) = sso w.
Proof.
  revert acc w. induction pages as [|page rest IH]; intros acc w; [reflexivity|].
  simpl. run. destruct page as [items|e]; simpl.
  - specialize (IH (acc ++ default [] items)%list (World (sso w) (rq :: sent w))).
    destruct (paginate rq rest (acc ++ default [] items)%list
                (World (sso w) (rq :: sent w))) as [[r| |e] w'] eqn:E; exact IH.
  - reflexivity.
Qed.

(** [get_role_credentials] without a token: the error value, and the world
    (handler and requests sent) is as before. *)
Lemma get_role_credentials_no_token_eq account_id role_name region answer w :
  truthy (access_token (sso w)) = false ->
  get_role_credentials account_id role_name region answer w
  = (Val (CredsError "Not authenticated"), w).
Proof.
  intros H. unfold get_role_credentials. run. rewrite H. reflexivity.
Qed.

(** With a token, [get_role_credentials] asks the provider, and what it
    returns is the provider's answer as a value; only the SSO client of the
    handler may change. *)
Lemma get_role_credentials_token_spec account_id role_name region answer w :
  truthy (access_token (sso w)) = true ->
  exists c h',
    get_role_credentials account_id role_name region answer w
    = (Val (match answer with
            | Answer cr => Creds (accessKeyId cr) (secretAccessKey cr) (sessionToken cr)
                             (expiration cr)
            | Fails e => CredsError (exn_str e)
            end),
       World h' (GetRoleCredentials c (access_token (sso w)) account_id role_name
                 :: sent w))
    /\ h' = set_sso_client (Some c) (sso w).
Proof.
  intros H. destruct w as [h s]. unfold get_role_credentials, get_sso_client. run.
  rewrite H. simpl.
  destruct (sso_client h) as [c|] eqn:Ec; simpl.
  - exists c. eexists. split.
    + destruct answer; reflexivity.
    + destruct h; simpl in *; subst; reflexivity.
  - eexists. eexists. split.
    + destruct answer; reflexivity.
    + reflexivity.
Qed.

(** C3, as stated, fails: with a token whose expiry has passed (so that
    [is_authenticated] is false), [get_role_credentials] still asks the
    provider and returns what it answers. *)
Lemma get_role_credentials_expired_token :
  let now := seconds 3600 + 1 in
  let out := get_role_credentials "111122223333" "Auditor" (Some "us-east-1")
               (Answer (RoleCredentials "AKIAEXAMPLE" "secret" "session" 7200))
               authorized_world in
  is_authenticated now (sso authorized_world) = false
  /\ fst out = Val (Creds "AKIAEXAMPLE" "secret" "session" 7200)
  /\ sent_since (sent authorized_world) (sent (snd out))
     = [GetRoleCredentials (Client "sso" (Some "us-east-1")) (Some "token-1")
          "111122223333" "Auditor"].
Proof. repeat split. Qed.

(** C3, amended: for every call to [get_role_credentials] made with no access
    token ([None] or empty), the result is the error value "Not
    authenticated", no request is sent to the provider and the handler is
    unchanged. *)
Theorem get_role_credentials_no_token account_id role_name region answer w :
  truthy (access_token (sso w)) = false ->
  fst (get_role_credentials account_id role_name region answer w)
  = Val (CredsError "Not authenticated")
  /\ sent (snd (get_role_credentials account_id role_name region answer w)) = sent w
  /\ sso (snd (get_role_credentials account_id role_name region answer w)) = sso w.
Proof.
  intros H. rewrite get_role_credentials_no_token_eq by exact H. repeat split.
Qed.

Lemma get_role_credentials_no_token_witness :
  let w := started_world in
  let out := get_role_credentials "111122223333" "Auditor" (Some "us-east-1")
               (Answer (RoleCredentials "AKIAEXAMPLE" "secret" "session" 7200)) w in
  truthy (access_token (sso w)) = false
  /\ fst out = Val (CredsError "Not authenticated")
  /\ sent (snd out) = sent w
  /\ sso (snd out) = sso w.
Proof.
  split; [reflexivity|].
  apply (get_role_credentials_no_token "111122223333" "Auditor" (Some "us-east-1")
           (Answer (RoleCredentials "AKIAEXAMPLE" "secret" "session" 7200))
           started_world).
  reflexivity.
Defined.

(** *** Polling *)

(** A poll without a device code answers at once and changes nothing. *)
Lemma poll_for_token_no_device_code region now answer w :
  truthy (device_code (sso w)) = false ->
  poll_for_token region now answer w
  = (Val (PollStatus "error" "No device authorization in progress"), w).
Proof. intros H. unfold poll_for_token. run. rewrite H. reflexivity. Qed.

Lemma sso_poll_no_device_code now answer w :
  truthy (device_code (sso w)) = false ->
  no_session_error (fst (sso_poll now answer w)) = true
  /\ snd (sso_poll now answer w) = w.
Proof.
  intros H. unfold sso_poll. run.
  destruct (current_region (sso w)) as [[|a r]|]; simpl; try (split; reflexivity).
  destruct (truthy (client_id (sso w))); simpl; try (split; reflexivity).
  rewrite poll_for_token_no_device_code by exact H. split; reflexivity.
Qed.

Lemma get_sso_client_sso region w :
  exists c, get_sso_client region w = (Val c, World (set_sso_client (Some c) (sso w)) (sent w)).
Proof.
  destruct w as [h s]. unfold get_sso_client. run.
  destruct (sso_client h) as [c|] eqn:E; simpl; eexists; [|reflexivity].
  destruct h; simpl in *; subst; reflexivity.
Qed.

(** No operation other than starting an authorization brings a device code
    back. *)
Lemma run_op_no_device_code op w :
  device_code (sso w) = None -> device_code (sso (run_op op w)) = None.
Proof.
  intros H.
  assert (Ht : truthy (device_code (sso w)) = false) by (rewrite H; reflexivity).
  destruct op as [region now answer | now answer | region pages | acct region pages
                 | acct role region answer | rq now answer | ]; simpl.
  - rewrite poll_for_token_no_device_code by exact Ht. exact H.
  - destruct (sso_poll_no_device_code now answer w Ht) as [_ ->]. exact H.
  - unfold list_accounts. run.
    destruct (truthy (access_token (sso w))); simpl; [|exact H].
    destruct (get_sso_client_sso (Some region) w) as [c ->]. simpl.
    rewrite paginate_sso. simpl. exact H.
  - unfold list_account_roles. run.
    destruct (truthy (access_token (sso w))); simpl; [|exact H].
    destruct (get_sso_client_sso (Some region) w) as [c ->]. simpl.
    rewrite paginate_sso. simpl. exact H.
  - destruct (truthy (access_token (sso w))) eqn:Et.
    + destruct (get_role_credentials_token_spec acct role region answer w Et)
        as (c & h' & -> & ->). simpl. exact H.
    + rewrite get_role_credentials_no_token_eq by exact Et. exact H.
  - unfold sso_get_credentials. run.
    destruct (is_authenticated now (sso w)); simpl; [|exact H].
    destruct (truthy (access_token (sso w))) eqn:Et.
    + destruct (get_role_credentials_token_spec (rc_account_id rq) (rc_role_name rq)
                  (rc_region rq) answer w Et) as (c & h' & -> & ->). simpl. exact H.
    + rewrite get_role_credentials_no_token_eq by exact Et. exact H.
  - reflexivity.
Qed.

Lemma run_ops_no_device_code ops w :
  device_code (sso w) = None -> device_code (sso (run_ops ops w)) = None.
Proof.
  revert w. induction ops as [|op ops IH]; intros w H; [exact H|].
  simpl. apply IH. apply run_op_no_device_code. exact H.
Qed.

(** A poll with a session: the token request is sent with the handler's
    client and device code, and the provider's answer decides the rest. *)
Lemma poll_for_token_spec region now answer w :
  truthy (device_code (sso w)) = true ->
  truthy (client_id (sso w)) = true ->
  exists c h1,
    get_sso_oidc_client region w = (Val c, World h1 (sent w))
    /\ let sent1 := CreateToken c (client_id h1) (client_secret h1)
                      "urn:ietf:params:oauth:grant-type:device_code" (device_code h1)
                    :: sent w in
       poll_for_token region now answer w =
       match answer with
       | Answer t =>
           (Val (PollSuccess (accessToken t) (tokenExpiresIn t)
                   (default "Bearer" (tokenType t))),
            World (set_token_expiry (Some (now + seconds (tokenExpiresIn t)))
                     (set_access_token (Some (accessToken t)) h1)) sent1)
       | Fails e =>
           match exn_cls e with
           | AuthorizationPendingException =>
               (Val (PollStatus "pending" "Waiting for user to complete authorization"),
                World h1 sent1)
           | SlowDownException =>
               (Val (PollStatus "slow_down" "Polling too fast, slow down"), World h1 sent1)
           | ExpiredTokenException =>
               (Val (PollStatus "expired" "Authorization expired, please start again"),
                World (set_device_code None h1) sent1)
           | AccessDeniedException =>
               (Val (PollStatus "denied" "Access denied by user"),
                World (set_device_code None h1) sent1)
           | _ => (Val (PollStatus "error" (exn_str e)), World h1 sent1)
           end
       end.
Proof.
  intros Hd Hc.
  destruct (get_sso_oidc_client_spec region w) as (c & h1 & Hg & _).
  exists c, h1. split; [exact Hg|].
  unfold poll_for_token. run. rewrite Hd, Hc. simpl. rewrite Hg. simpl.
  destruct answer as [t|e]; simpl; [reflexivity|].
  destruct (exn_cls e); reflexivity.
Qed.

(** The status of a poll that found no session or no client is "error". *)
Lemma poll_for_token_cases region now answer w :
  (truthy (device_code (sso w)) = true /\ truthy (client_id (sso w)) = true)
  \/ (outcome (fst (poll_for_token region now answer w)) = "error"
      /\ snd (poll_for_token region now answer w) = w).
Proof.
  destruct (truthy (device_code (sso w))) eqn:Hd.
  - destruct (truthy (client_id (sso w))) eqn:Hc; [left; split; reflexivity|].
    right. unfold poll_for_token. run. rewrite Hd, Hc. split; reflexivity.
  - right. rewrite poll_for_token_no_device_code by exact Hd. split; reflexivity.
Qed.

(** C6: a poll that ends Expired or Denied clears the device code, and from
    then on, whatever else is done with the handler short of starting a new
    authorization, every poll is refused for lack of a session and changes
    nothing; a poll (in the session's region) that ends Pending or SlowDown
    leaves the session and the token as they were, and the next poll goes to
    the provider again: if the provider grants the token, it succeeds. *)
Theorem poll_for_token_outcomes region now answer w :
  let out := poll_for_token region now answer w in
  (outcome (fst out) = "expired" \/ outcome (fst out) = "denied" ->
     device_code (sso (snd out)) = None
     /\ forall ops region' now' answer',
          let w' := run_ops ops (snd out) in
          poll_for_token region' now' answer' w'
          = (Val (PollStatus "error" "No device authorization in progress"), w')
          /\ no_session_error (fst (sso_poll now' answer' w')) = true
          /\ snd (sso_poll now' answer' w') = w')
  /\ (outcome (fst out) = "pending" \/ outcome (fst out) = "slow_down" ->
      current_region (sso w) = Some region ->
        session (sso (snd out)) = session (sso w)
        /\ access_token (sso (snd out)) = access_token (sso w)
        /\ token_expiry (sso (snd out)) = token_expiry (sso w)
        /\ forall now' t,
             fst (poll_for_token region now' (Answer t) (snd out))
             = Val (PollSuccess (accessToken t) (tokenExpiresIn t)
                      (default "Bearer" (tokenType t)))
             /\ exists c,
                  sent (snd (poll_for_token region now' (Answer t) (snd out)))
                  = CreateToken c (client_id (sso w)) (client_secret (sso w))
                      "urn:ietf:params:oauth:grant-type:device_code"
                      (device_code (sso w))
                    :: sent (snd out)).
Proof.
  intros out. subst out. split.
  - intros Hout.
    assert (Hnone : device_code (sso (snd (poll_for_token region now answer w))) = None).
    { destruct (poll_for_token_cases region now answer w) as [[Hd Hc] | [He _]].
      - destruct (poll_for_token_spec region now answer w Hd Hc) as (c & h1 & _ & Heq).
        simpl in Heq. rewrite Heq in *.
        destruct answer as [t|e]; simpl in *.
        + destruct Hout as [Hout|Hout]; discriminate Hout.
        + destruct (exn_cls e); simpl in *; try reflexivity;
            destruct Hout as [Hout|Hout]; discriminate Hout.
      - rewrite He in Hout. destruct Hout as [Hout|Hout]; discriminate Hout. }
    split; [exact Hnone|].
    intros ops region' now' answer' w'. subst w'.
    pose proof (run_ops_no_device_code ops _ Hnone) as Hn.
    assert (Ht : truthy (device_code
                  (sso (run_ops ops (snd (poll_for_token region now answer w))))) = false)
      by (rewrite Hn; reflexivity).
    split; [apply poll_for_token_no_device_code; exact Ht|].
    apply sso_poll_no_device_code; exact Ht.
  - intros Hout Hreg.
    destruct (poll_for_token_cases region now answer w) as [[Hd Hc] | [He _]].
    2:{ rewrite He in Hout. destruct Hout as [Hout|Hout]; discriminate Hout. }
    destruct (poll_for_token_spec region now answer w Hd Hc) as (c & h1 & Hg & Heq).
    destruct (get_sso_oidc_client_spec region w)
      as (c' & h1' & Hg' & Hcur & Hoc & Hdev & Htok & Hexp & Hsame & _).
    rewrite Hg in Hg'. injection Hg' as <- <-.
    destruct (Hsame Hreg) as [Hid Hsec].
    assert (Hw1 : snd (poll_for_token region now answer w)
                  = World h1 (CreateToken c (client_id h1) (client_secret h1)
                                "urn:ietf:params:oauth:grant-type:device_code"
                                (device_code h1) :: sent w)).
    { simpl in Heq. rewrite Heq in *.
      destruct answer as [t|e]; simpl in *.
      - destruct Hout as [Hout|Hout]; discriminate Hout.
      - destruct (exn_cls e); simpl in *; try reflexivity;
          destruct Hout as [Hout|Hout]; discriminate Hout. }
    rewrite Hw1. simpl. unfold session.
    rewrite Hid, Hsec, Hdev, Hcur, Htok, Hexp, Hreg.
    repeat (split; [reflexivity|]).
    intros now' t.
    set (w1 := World h1 _).
    assert (Hd1 : truthy (device_code (sso w1)) = true) by (simpl; rewrite Hdev; exact Hd).
    assert (Hc1 : truthy (client_id (sso w1)) = true) by (simpl; rewrite Hid; exact Hc).
    destruct (poll_for_token_spec region now' (Answer t) w1 Hd1 Hc1)
      as (c2 & h2 & Hg2 & Heq2).
    destruct (get_sso_oidc_client_spec region w1)
      as (c2' & h2' & Hg2' & _ & _ & Hdev2 & _ & _ & Hsame2 & _).
    rewrite Hg2 in Hg2'. injection Hg2' as <- <-.
    destruct (Hsame2 Hcur) as [Hid2 Hsec2].
    simpl in Heq2. rewrite Heq2. simpl. split; [reflexivity|].
    exists c2. simpl in *. rewrite Hid2, Hsec2, Hdev2, Hid, Hsec, Hdev. reflexivity.
Qed.

Lemma poll_for_token_outcomes_witness :
  let expired := poll_for_token "us-east-1" 700
                   (Fails (Exn ExpiredTokenException "expired")) started_world in
  let pending := poll_for_token "us-east-1" 5
                   (Fails (Exn AuthorizationPendingException "pending")) started_world in
  (outcome (fst expired) = "expired" \/ outcome (fst expired) = "denied")
  /\ device_code (sso (snd expired)) = None
  /\ (outcome (fst pending) = "pending" \/ outcome (fst pending) = "slow_down")
  /\ current_region (sso started_world) = Some "us-east-1"
  /\ session (sso (snd pending)) = session (sso started_world).
Proof.
  split; [left; reflexivity|].
  split.
  { apply (proj1 (poll_for_token_outcomes "us-east-1" 700
                    (Fails (Exn ExpiredTokenException "expired")) started_world)).
    left; reflexivity. }
  split; [left; reflexivity|].
  split; [reflexivity|].
  apply (proj2 (poll_for_token_outcomes "us-east-1" 5
                  (Fails (Exn AuthorizationPendingException "pending")) started_world)).
  - left; reflexivity.
  - reflexivity.
Defined.

(** ** The job table *)

Section DictFacts.
Context {V : Type}.
Implicit Types (d : PyDict.t V) (k : string) (v : V).

Lemma lookup_setitem_eq k v d : PyDict.lookup k (PyDict.setitem k v d) = Some v.
Proof.
  induction d as [|[k' v'] d IH]; simpl.
  - rewrite String.eqb_refl. reflexivity.
  - destruct (String.eqb k k') eqn:E; simpl; rewrite E; [reflexivity | exact IH].
Qed.

Lemma lookup_setitem_ne k k' v d :
  k <> k' -> PyDict.lookup k' (PyDict.setitem k v d) = PyDict.lookup k' d.
Proof.
  intros Hne. induction d as [|[k0 v0] d IH]; simpl.
  - destruct (String.eqb k' k) eqn:E; [|reflexivity].
    apply String.eqb_eq in E. congruence.
  - destruct (String.eqb k k0) eqn:E; simpl.
    + apply String.eqb_eq in E. subst k0.
      destruct (String.eqb k' k) eqn:E'; [|reflexivity].
      apply String.eqb_eq in E'. congruence.
    + destruct (String.eqb k' k0); [reflexivity | exact IH].
Qed.

Lemma lookup_none_notin k d : PyDict.lookup k d = None <-> ~ In k (PyDict.keys d).
Proof.
  induction d as [|[k' v'] d IH]; simpl; [tauto|].
  destruct (String.eqb k k') eqn:E.
  - apply String.eqb_eq in E. subst. split; [discriminate | intros H; exfalso; auto].
  - apply String.eqb_neq in E. rewrite IH. split; [intros H [H'|H']; auto | auto].
Qed.

(** A new key goes to the end. *)
Lemma setitem_new k v d :
  PyDict.lookup k d = None -> PyDict.setitem k v d = (d ++ [(k, v)])%list.
Proof.
  induction d as [|[k' v'] d IH]; simpl; [reflexivity|].
  destruct (String.eqb k k'); [discriminate|]. intros H. rewrite IH by exact H. reflexivity.
Qed.

(** A key that is there keeps its place; the keys do not change. *)
Lemma setitem_keys_present k v d :
  PyDict.lookup k d <> None -> PyDict.keys (PyDict.setitem k v d) = PyDict.keys d.
Proof.
  induction d as [|[k' v'] d IH]; simpl; [congruence|].
  destruct (String.eqb k k') eqn:E; simpl; [reflexivity|].
  intros H. rewrite IH by exact H. reflexivity.
Qed.
End DictFacts.

(** *** Running the monad *)

Lemma bind_ret_l {S A B} (x : A) (k : A -> M S B) s : bind (ret x) k s = k x s.
Proof. reflexivity. Qed.

Lemma bind_get {S B} (k : S -> M S B) s : bind get k s = k s s.
Proof. reflexivity. Qed.

Lemma bind_return {S A B} (k : A -> M S B) s : bind return_ k s = (Ret, s).
Proof. reflexivity. Qed.

Lemma bind_raise {S A B} e (k : A -> M S B) s : bind (raise e) k s = (Exc e, s).
Proof. reflexivity. Qed.

Lemma bind_assoc {S A B C} (m : M S A) (k : A -> M S B) (k' : B -> M S C) s :
  bind (bind m k) k' s = bind m (fun x => bind (k x) k') s.
Proof. unfold bind. destruct (m s) as [[x| |e] s']; reflexivity. Qed.

Lemma set_job_present job_id f a j :
  PyDict.lookup job_id (scan_jobs a) = Some j ->
  set_job job_id f a = (Val tt, after_write job_id (f j) a).
Proof. intros H. unfold set_job, bind, get. rewrite H. reflexivity. Qed.

Lemma set_job_absent job_id f a :
  PyDict.lookup job_id (scan_jobs a) = None ->
  set_job job_id f a = (Exc (key_error job_id), a).
Proof. intros H. unfold set_job, bind, get. rewrite H. reflexivity. Qed.

Lemma bind_set_job {B} job_id f (k : unit -> M app B) a j :
  PyDict.lookup job_id (scan_jobs a) = Some j ->
  bind (set_job job_id f) k a = k tt (after_write job_id (f j) a).
Proof. intros H. unfold bind. rewrite (set_job_present _ _ _ _ H). reflexivity. Qed.

Lemma lookup_after_write job_id j' a :
  PyDict.lookup job_id (scan_jobs (after_write job_id j' a)) = Some j'.
Proof. apply lookup_setitem_eq. Qed.

(** ** Submitting jobs *)

(** C1, as stated, fails: a request that names a profile and an SSO account
    and role is accepted, and its job is in the table. *)
Lemma start_scan_accepts_both_selectors :
  both_selectors both_request = true
  /\ fst (start_scan both_request "1a2b3c4d" 1000 empty_app)
     = Val (pending_job both_request "1a2b3c4d" 1000)
  /\ get_scan_status "1a2b3c4d" (snd (start_scan both_request "1a2b3c4d" 1000 empty_app))
     = Some (pending_job both_request "1a2b3c4d" 1000).
Proof. repeat split. Qed.

Lemma start_scan_eq request job_id now a :
  start_scan request job_id now a
  = (Val (pending_job request job_id now),
     App (PyDict.setitem job_id (pending_job request job_id now) (scan_jobs a))
       (sso_handler a) (spawned a) (writes a)).
Proof.
  unfold start_scan, bind, modify, get. simpl.
  rewrite lookup_setitem_eq. reflexivity.
Qed.

(** C1, amended: [start_scan] rejects nothing.  For every request, whatever
    credential selectors it carries, it returns the new record (status
    pending, progress 0), and that record is then what the table holds under
    the job id. *)
Theorem start_scan_creates request job_id now a :
  let out := start_scan request job_id now a in
  fst out = Val (pending_job request job_id now)
  /\ get_scan_status job_id (snd out) = Some (pending_job request job_id now)
  /\ status (pending_job request job_id now) = "pending"
  /\ progress (pending_job request job_id now) = 0.
Proof.
  intros out. subst out. rewrite start_scan_eq. simpl. unfold get_scan_status. simpl.
  split; [reflexivity|]. split; [apply lookup_setitem_eq|]. split; reflexivity.
Qed.

(** *** The order of [list_scans] *)

Lemma submit_all_app subs1 subs2 a :
  submit_all (subs1 ++ subs2)%list a = submit_all subs2 (submit_all subs1 a).
Proof. unfold submit_all. apply fold_left_app. Qed.

Lemma keys_app {V} (d1 d2 : PyDict.t V) :
  PyDict.keys (d1 ++ d2)%list = (PyDict.keys d1 ++ PyDict.keys d2)%list.
Proof. unfold PyDict.keys. apply map_app. Qed.

(** Submissions with job ids that are new and pairwise distinct append their
    records to the table, in the order of submission. *)
Lemma submit_all_distinct subs a :
  List.NoDup (PyDict.keys (scan_jobs a) ++ map (fun s => snd (fst s)) subs)%list ->
  scan_jobs (submit_all subs a)
  = (scan_jobs a
     ++ map (fun s => (snd (fst s), pending_job (fst (fst s)) (snd (fst s)) (snd s))) subs)%list.
Proof.
  revert a. induction subs as [|[[rq id] now] subs IH]; intros a Hnd.
  - simpl. rewrite app_nil_r. reflexivity.
  - simpl in Hnd.
    assert (Hnew : PyDict.lookup id (scan_jobs a) = None).
    { apply lookup_none_notin. intros Hin.
      apply List.NoDup_remove_2 in Hnd. apply Hnd. apply in_or_app. left. exact Hin. }
    change (submit_all ((rq, id, now) :: subs) a)
      with (submit_all subs (snd (start_scan rq id now a))).
    rewrite start_scan_eq. simpl snd.
    rewrite IH; simpl scan_jobs; rewrite (setitem_new _ _ _ Hnew).
    + rewrite <- app_assoc. reflexivity.
    + rewrite keys_app. simpl. rewrite <- app_assoc. simpl. exact Hnd.
Qed.

(** ** What a run of [run_scan] preserves

    A relation between the application before and after that is reflexive
    and transitive, that holds across every assignment to a field of the
    job's own record and across every change of the handler and of the list
    of spawned processes, holds across [run_scan]. *)

Section Preserves.
Variable job_id : string.
Variable R : app -> app -> Prop.
Hypothesis R_refl : forall a, R a a.
Hypothesis R_trans : forall a b c, R a b -> R b c -> R a c.
Hypothesis R_write : forall a j f,
  PyDict.lookup job_id (scan_jobs a) = Some j -> field_setter f ->
  R a (after_write job_id (f j) a).
Hypothesis R_other : forall a w sp, R a (App (scan_jobs a) w sp (writes a)).

Lemma preserves_ret {A} (x : A) : preserves R (ret x).
Proof. intros a. apply R_refl. Qed.

Lemma preserves_get : preserves R get.
Proof. intros a. apply R_refl. Qed.

Lemma preserves_return {A} : preserves R (@return_ app A).
Proof. intros a. apply R_refl. Qed.

Lemma preserves_raise {A} e : preserves R (@raise app A e).
Proof. intros a. apply R_refl. Qed.

Lemma preserves_pure {A} (r : res A) : preserves R (pure r).
Proof. intros a. apply R_refl. Qed.

Lemma preserves_bind {A B} (m : M app A) (k : A -> M app B) :
  preserves R m -> (forall x, preserves R (k x)) -> preserves R (bind m k).
Proof.
  intros Hm Hk a. unfold bind. specialize (Hm a).
  destruct (m a) as [[x| |e] a']; simpl in *; try exact Hm.
  eapply R_trans; [exact Hm | apply Hk].
Qed.

Lemma preserves_catch {A} (m : M app A) (h : exn -> M app A) :
  preserves R m -> (forall e, preserves R (h e)) -> preserves R (catch m h).
Proof.
  intros Hm Hh a. unfold catch. specialize (Hm a).
  destruct (m a) as [[x| |e] a']; simpl in *; try exact Hm.
  eapply R_trans; [exact Hm | apply Hh].
Qed.

Lemma preserves_set_job f : field_setter f -> preserves R (set_job job_id f).
Proof.
  intros Hf a. destruct (PyDict.lookup job_id (scan_jobs a)) as [j|] eqn:E.
  - rewrite (set_job_present _ _ _ _ E). apply R_write; assumption.
  - rewrite (set_job_absent _ _ _ E). apply R_refl.
Qed.

Lemma preserves_on_sso {A} (m : M world A) : preserves R (on_sso m).
Proof.
  intros a. unfold on_sso. destruct (m (sso_handler a)) as [r w]. apply R_other.
Qed.

Lemma preserves_spawn args answer : preserves R (spawn args answer).
Proof. intros a. unfold spawn. destruct answer; apply R_other. Qed.

Ltac preserve :=
  repeat first
    [ apply preserves_ret | apply preserves_get | apply preserves_return
    | apply preserves_raise | apply preserves_pure | apply preserves_on_sso
    | apply preserves_spawn
    | apply preserves_set_job; constructor
    | apply preserves_bind; [|intros]
    | apply preserves_catch; [|intros]
    | match goal with
      | |- preserves R (match ?x with _ => _ end) => destruct x
      | |- preserves R (let _ := _ in _) => cbv zeta
      end ].

Lemma preserves_read_output total lines scanned out :
  preserves R (read_output job_id total lines scanned out).
Proof.
  revert scanned out. induction lines as [|line rest IH]; intros scanned out; simpl.
  - preserve.
  - preserve; apply IH.
Qed.

Lemma preserves_run_scan request io : preserves R (run_scan job_id request io).
Proof.
  unfold run_scan. preserve. apply preserves_read_output.
Qed.

End Preserves.

Lemma distinct_NoDup l : distinct l = true -> List.NoDup l.
Proof.
  induction l as [|x r IH]; simpl; [constructor|].
  rewrite andb_true_iff, negb_true_iff. intros [Hx Hr].
  constructor; [|apply IH; exact Hr].
  intros Hin. apply not_true_iff_false in Hx. apply Hx.
  apply existsb_exists. exists x. split; [exact Hin | apply String.eqb_refl].
Qed.

Lemma setitem_values_present {V B} (g : V -> B) k (v v' : V) (d : PyDict.t V) :
  PyDict.lookup k d = Some v -> g v' = g v ->
  map g (PyDict.values (PyDict.setitem k v' d)) = map g (PyDict.values d).
Proof.
  intros Hl Hg. unfold PyDict.values.
  induction d as [|[k0 v0] d IH]; simpl in *; [discriminate|].
  destruct (String.eqb k k0) eqn:E; simpl.
  - injection Hl as ->. rewrite Hg. reflexivity.
  - rewrite IH by exact Hl. reflexivity.
Qed.

Lemma field_setter_identity f j : field_setter f -> identity (f j) = identity j.
Proof. intros []; reflexivity. Qed.

(** A run of the job [id] stays within its frame. *)
Lemma run_scan_frame id request io a : frame id a (snd (run_scan id request io a)).
Proof.
  apply preserves_run_scan; unfold frame.
  - intros b. repeat split.
  - intros b c d (K1 & V1 & L1) (K2 & V2 & L2). repeat split.
    + congruence.
    + congruence.
    + intros k Hk. rewrite L2, L1 by exact Hk. reflexivity.
  - intros b j f Hl Hf. simpl. repeat split.
    + apply setitem_keys_present. congruence.
    + apply setitem_values_present with (v := j); [exact Hl|].
      apply field_setter_identity. exact Hf.
    + intros k Hk. apply lookup_setitem_ne. congruence.
  - intros b w sp. repeat split.
Qed.

(** C8, as stated, fails: of two jobs, the one submitted first is listed
    first. *)
Lemma list_scans_oldest_first :
  let a := after_events [Submit both_request "1a2b3c4d" 1000;
                         Submit both_request "5e6f7a8b" 2000] in
  map created_at (list_scans a) = [1000; 2000]
  /\ most_recent_first (list_scans a) = false.
Proof. split; reflexivity. Qed.

Lemma after_events_snoc evs ev :
  after_events (evs ++ [ev])%list = apply_event (after_events evs) ev.
Proof. unfold after_events. rewrite fold_left_app. reflexivity. Qed.

Lemma submissions_snoc evs ev :
  submissions (evs ++ [ev])%list = (submissions evs ++ submissions [ev])%list.
Proof. unfold submissions. apply flat_map_app. Qed.

Lemma after_events_table evs :
  List.NoDup (map fst (submissions evs)) ->
  PyDict.keys (scan_jobs (after_events evs)) = map fst (submissions evs)
  /\ map (fun j => (job_id j, created_at j)) (PyDict.values (scan_jobs (after_events evs)))
     = submissions evs.
Proof.
  induction evs as [|ev evs IH] using rev_ind; intros Hnd; [split; reflexivity|].
  rewrite after_events_snoc, submissions_snoc in *.
  rewrite map_app in Hnd.
  destruct IH as [IHk IHv]; [eapply NoDup_app_remove_r; exact Hnd|].
  destruct ev as [rq id now | id rq io]; simpl.
  - rewrite start_scan_eq. simpl.
    assert (Hnew : PyDict.lookup id (scan_jobs (after_events evs)) = None).
    { apply lookup_none_notin. rewrite IHk. simpl in Hnd.
      apply List.NoDup_remove_2 in Hnd. rewrite app_nil_r in Hnd. exact Hnd. }
    rewrite (setitem_new _ _ _ Hnew). rewrite keys_app. unfold PyDict.values in *.
    rewrite !map_app, IHk, IHv. split; reflexivity.
  - rewrite !app_nil_r.
    destruct (run_scan_frame id rq io (after_events evs)) as (K & V & _).
    rewrite K, IHk. split; [reflexivity|].
    rewrite <- IHv.
    apply (f_equal (map (fun t : string * Z * ScanRequest => fst t))) in V.
    rewrite !map_map in V. exact V.
Qed.

(** C8, amended: [list_scans] returns the records of all jobs in the order
    in which the jobs were submitted, the oldest first, in every state the
    table reaches through submissions with different job ids and runs of the
    runner. *)
Theorem list_scans_submission_order evs :
  distinct (map fst (submissions evs)) = true ->
  map (fun j => (job_id j, created_at j)) (list_scans (after_events evs))
  = submissions evs.
Proof.
  intros H. apply after_events_table, distinct_NoDup, H.
Qed.

Lemma list_scans_submission_order_witness :
  let evs := [Submit both_request "1a2b3c4d" 1000;
              Run "1a2b3c4d" both_request plain_inputs;
              Submit both_request "5e6f7a8b" 2000] in
  distinct (map fst (submissions evs)) = true
  /\ map (fun j => (job_id j, created_at j)) (list_scans (after_events evs))
     = [("1a2b3c4d", 1000); ("5e6f7a8b", 2000)].
Proof.
  split; [reflexivity|].
  apply (list_scans_submission_order
           [Submit both_request "1a2b3c4d" 1000;
            Run "1a2b3c4d" both_request plain_inputs;
            Submit both_request "5e6f7a8b" 2000]).
  reflexivity.
Defined.

(** ** The runner *)

Lemma sso_handler_after_write id j' a : sso_handler (after_write id j' a) = sso_handler a.
Proof. reflexivity. Qed.

Lemma spawned_after_write id j' a : spawned (after_write id j' a) = spawned a.
Proof. reflexivity. Qed.

Lemma nonempty_truthy o : nonempty o = None <-> truthy o = false.
Proof. destruct o as [[|c s]|]; simpl; split; congruence. Qed.

Lemma nonempty_some o s : nonempty o = Some s -> o = Some s /\ truthy o = true.
Proof. destruct o as [[|c r]|]; simpl; intros [=]; subst; split; reflexivity. Qed.

Lemma bind_on_sso {A B} (m : M world A) (k : A -> M app B) a x w :
  m (sso_handler a) = (Val x, w) -> bind (on_sso m) k a = k x (with_sso w a).
Proof. intros H. unfold bind, on_sso. rewrite H. reflexivity. Qed.

Lemma bind_spawn {B} args p (k : process -> M app B) a :
  bind (spawn args (Answer p)) k a = k p (with_spawned args a).
Proof. reflexivity. Qed.

Lemma bind_spawn_fails {B} args e (k : process -> M app B) a :
  bind (spawn args (Fails e)) k a = (Exc e, with_spawned args a).
Proof. reflexivity. Qed.

(** The job looked up in a state built by the runner's steps. *)
Ltac solve_lookup :=
  cbn [scan_jobs with_sso with_spawned after_write];
  first [eassumption | apply lookup_setitem_eq].

(** The runner's steps on a job that is in the table. *)
Ltac exec :=
  repeat first
    [ rewrite bind_assoc
    | erewrite bind_set_job by solve_lookup
    | rewrite bind_get
    | rewrite bind_ret_l
    | rewrite bind_return
    | rewrite bind_raise
    | rewrite bind_spawn
    | rewrite bind_spawn_fails
    | rewrite sso_handler_after_write
    | rewrite spawned_after_write
    | progress cbv beta iota zeta ].

(** C2, as stated, fails: a request that selects SSO while the handler holds
    no valid token is not failed; the runner falls back on the profile and
    spawns the scanner with it. *)
Lemma run_scan_sso_unauthenticated_spawns :
  let out := run_scan "1a2b3c4d" both_request plain_inputs submitted_app in
  use_sso both_request = Some true
  /\ is_authenticated (now_auth plain_inputs) (sso (sso_handler submitted_app)) = false
  /\ option_map status (get_scan_status "1a2b3c4d" (snd out)) = Some "completed"
  /\ map (fun p => env p !! "AWS_PROFILE") (spawned (snd out)) = [Some "dev"].
Proof. repeat split. Qed.

(** C2, amended: for every scan request that selects SSO while the handler
    holds a valid token, if the account id or the role name is missing or
    the credential exchange returns an error, the job is marked failed with
    an error text and no subprocess is spawned for it. *)
Theorem run_scan_sso_failure id request io a j :
  PyDict.lookup id (scan_jobs a) = Some j ->
  use_sso request = Some true ->
  is_authenticated (now_auth io) (sso (sso_handler a)) = true ->
  credentials_unavailable request io = true ->
  let out := run_scan id request io a in
  fst out = Ret
  /\ spawned (snd out) = spawned a
  /\ exists j', get_scan_status id (snd out) = Some j'
       /\ status j' = "failed" /\ error j' <> None.
Proof.
  intros Hj Huse Hauth Hun out. subst out.
  enough (exists a', run_scan id request io a = (Ret, a')
            /\ spawned a' = spawned a
            /\ exists j', PyDict.lookup id (scan_jobs a') = Some j'
                 /\ status j' = "failed" /\ error j' <> None)
    as (a' & -> & H); [split; [reflexivity | exact H]|].
  unfold run_scan, catch. exec.
  rewrite Huse, Hauth. change (default false (Some true) && true)%bool with true.
  exec.
  unfold credentials_unavailable in Hun.
  destruct (nonempty (sso_account_id request)) as [acct|] eqn:Ea.
  2:{ exec. eexists. split; [reflexivity|]. split; [reflexivity|].
      eexists. split; [apply lookup_after_write|]. split; [reflexivity | discriminate]. }
  destruct (nonempty (sso_role_name request)) as [role|] eqn:Er.
  2:{ exec. eexists. split; [reflexivity|]. split; [reflexivity|].
      eexists. split; [apply lookup_after_write|]. split; [reflexivity | discriminate]. }
  apply nonempty_some in Ea as [_ Ea]. apply nonempty_some in Er as [_ Er].
  rewrite Ea, Er in Hun. simpl in Hun.
  destruct (credentials io) as [cr|e] eqn:Ec; [discriminate|].
  assert (Ht : truthy (access_token (sso (sso_handler a))) = true).
  { unfold is_authenticated in Hauth.
    destruct (access_token _) as [[|]|]; try discriminate; reflexivity. }
  match goal with
  | |- context [get_role_credentials acct role ?rg (Fails e)] =>
      destruct (get_role_credentials_token_spec acct role rg (Fails e)
                  (sso_handler a) Ht) as (c & h' & Hg & _)
  end.
  rewrite bind_assoc. erewrite bind_on_sso by exact Hg. exec.
  eexists. split; [reflexivity|]. split; [reflexivity|].
  eexists. split; [apply lookup_after_write|]. split; [reflexivity | discriminate].
Qed.

Lemma run_scan_sso_failure_witness :
  let io := ScanInputs "/usr/bin/python3" "/opt/screener/main.py" ∅ (seconds 60)
              (Fails (Exn OtherException "ForbiddenException"))
              (Answer (Process [] 0)) 5000 (Answer None) in
  let out := run_scan "1a2b3c4d" both_request io authorized_app in
  PyDict.lookup "1a2b3c4d" (scan_jobs authorized_app)
  = Some (pending_job both_request "1a2b3c4d" 1000)
  /\ use_sso both_request = Some true
  /\ is_authenticated (now_auth io) (sso (sso_handler authorized_app)) = true
  /\ credentials_unavailable both_request io = true
  /\ fst out = Ret
  /\ spawned (snd out) = spawned authorized_app.
Proof.
  intros io out.
  split; [reflexivity|]. split; [reflexivity|]. split; [reflexivity|].
  split; [reflexivity|].
  pose proof (run_scan_sso_failure "1a2b3c4d" both_request io authorized_app
                (pending_job both_request "1a2b3c4d" 1000)
                eq_refl eq_refl eq_refl eq_refl) as H.
  split; [exact (proj1 H) | exact (proj1 (proj2 H))].
Defined.

(** ** The progress loop of [run_scan] *)

Lemma scan_progress_table :
  forallb (fun n => forallb (fun k => progress_agrees (Z.of_nat n) (Z.of_nat k))
                      (seq 1 max_markers)) (seq 1 max_services) = true.
Proof. vm_compute. reflexivity. Qed.

Lemma scan_progress_exact k n :
  1 <= n <= Z.of_nat max_services -> 1 <= k <= Z.of_nat max_markers ->
  scan_progress k n = Val (exact_progress k n).
Proof.
  intros Hn Hk. pose proof scan_progress_table as H.
  rewrite forallb_forall in H. specialize (H (Z.to_nat n)).
  rewrite forallb_forall in H. specialize (H ltac:(apply in_seq; lia) (Z.to_nat k)).
  specialize (H ltac:(apply in_seq; lia)).
  unfold progress_agrees in H. rewrite !Z2Nat.id in H by lia.
  destruct (scan_progress k n); try discriminate.
  apply Z.eqb_eq in H. congruence.
Qed.

Lemma exact_progress_le_90 k n : exact_progress k n <= 90.
Proof. unfold exact_progress. lia. Qed.

Lemma exact_progress_mono k k' n :
  0 < n -> k <= k' -> exact_progress k n <= exact_progress k' n.
Proof.
  intros Hn Hk. unfold exact_progress.
  assert (80 * k / n <= 80 * k' / n) by (apply Z.div_le_mono; lia). lia.
Qed.

Lemma exact_progress_ge_10 k n : 0 < n -> 0 <= k -> 10 <= exact_progress k n.
Proof.
  intros Hn Hk. unfold exact_progress.
  assert (0 <= 80 * k / n) by (apply Z.div_pos; lia). lia.
Qed.

Lemma written_since_app (l s : list job) : written_since s (l ++ s)%list = List.rev l.
Proof.
  unfold written_since. rewrite length_app.
  replace (length l + length s - length s)%nat with (length l) by lia.
  rewrite firstn_app, Nat.sub_diag, firstn_all. simpl. rewrite app_nil_r. reflexivity.
Qed.

Lemma counters_S k m : counters k (S m) = k + 1 :: counters (k + 1) m.
Proof.
  unfold counters. simpl. f_equal. rewrite <- seq_shift, map_map.
  apply map_ext. intros i. lia.
Qed.

Lemma set_same_fields j : set_current_task (current_task j) (set_progress (progress j) j) = j.
Proof. destruct j; reflexivity. Qed.

Lemma markers_nonneg lines : 0 <= markers lines.
Proof. unfold markers. lia. Qed.

Lemma consumed_cons line rest :
  consumed (line :: rest) = if String.eqb line "" then [] else line :: consumed rest.
Proof. reflexivity. Qed.

Lemma markers_cons line rest :
  markers (line :: rest)
  = if String.eqb line "" then 0
    else if is_marker line then 1 + markers rest else markers rest.
Proof.
  unfold markers. rewrite consumed_cons. destruct (String.eqb line ""); [reflexivity|].
  cbn [List.filter]. destruct (is_marker line); [|reflexivity].
  cbn [length]. lia.
Qed.

(** The loop, for a job that is in the table, in the range over which the
    float expression was evaluated: it returns the counter and the lines,
    and writes the progress of each counter value (twice: the assignment
    to ["progress"] and the one to ["current_task"] that follows). *)
Lemma read_output_spec id n lines : forall k out a j,
  PyDict.lookup id (scan_jobs a) = Some j ->
  1 <= n <= Z.of_nat max_services ->
  0 <= k -> k + markers lines <= Z.of_nat max_markers ->
  exists a' ws p t,
    read_output id n lines k out a
    = (Val (k + markers lines, (out ++ map strip (consumed lines))%list), a')
    /\ PyDict.lookup id (scan_jobs a') = Some (set_current_task t (set_progress p j))
    /\ (p = if markers lines =? 0 then progress j else exact_progress (k + markers lines) n)
    /\ sso_handler a' = sso_handler a /\ spawned a' = spawned a
    /\ writes a' = (ws ++ writes a)%list
    /\ map progress (List.rev ws)
       = flat_map (fun i => [exact_progress i n; exact_progress i n])
           (counters k (Z.to_nat (markers lines))).
Proof.
  assert (Hstop : forall k out a j,
    PyDict.lookup id (scan_jobs a) = Some j ->
    exists a' ws p t,
      (ret (k, out) a : res (Z * list string) * app)
      = (Val (k + 0, (out ++ map strip [])%list), a')
      /\ PyDict.lookup id (scan_jobs a') = Some (set_current_task t (set_progress p j))
      /\ (p = if 0 =? 0 then progress j else exact_progress (k + 0) n)
      /\ sso_handler a' = sso_handler a /\ spawned a' = spawned a
      /\ writes a' = (ws ++ writes a)%list
      /\ map progress (List.rev ws)
         = flat_map (fun i => [exact_progress i n; exact_progress i n])
             (counters k (Z.to_nat 0))).
  { intros k out a j Hj. exists a, [], (progress j), (current_task j).
    rewrite set_same_fields, Z.add_0_r. cbn [map]. rewrite app_nil_r.
    repeat split; auto. }
  induction lines as [|line rest IH]; intros k out a j Hj Hn Hk Hm.
  - apply Hstop, Hj.
  - rewrite markers_cons in *. cbn [read_output]. rewrite consumed_cons.
    destruct (String.eqb line "") eqn:El; [apply Hstop, Hj|].
    pose proof (markers_nonneg rest) as Hr.
    destruct (is_marker line) eqn:Em.
    + assert (Hp : scan_progress (k + 1) n = Val (exact_progress (k + 1) n))
        by (apply scan_progress_exact; lia).
      unfold bind at 1, pure. rewrite Hp. exec.
      edestruct (IH (k + 1) (out ++ [strip line])%list) as (a' & ws & p & t & E & L & P & S1 & S2 & W & Q);
        [apply lookup_after_write | exact Hn | lia | lia |].
      rewrite E.
      exists a', (ws ++ [set_current_task (upto 100 (strip line))
                           (set_progress (exact_progress (k + 1) n) j);
                         set_progress (exact_progress (k + 1) n) j])%list, p, t.
      split; [rewrite Z.add_assoc; cbn [map]; rewrite <- app_assoc; reflexivity|].
      split; [rewrite L; destruct j; reflexivity|].
      split.
      { rewrite P. destruct (markers rest =? 0) eqn:E0.
        - apply Z.eqb_eq in E0. rewrite E0.
          replace (1 + 0 =? 0) with false by reflexivity.
          rewrite Z.add_0_r. destruct j; reflexivity.
        - replace (1 + markers rest =? 0) with false by (symmetry; apply Z.eqb_neq; lia).
          rewrite Z.add_assoc. reflexivity. }
      split; [rewrite S1; reflexivity|].
      split; [rewrite S2; reflexivity|].
      split; [rewrite W, <- app_assoc; reflexivity|].
      rewrite rev_app_distr, map_app, Q.
      replace (Z.to_nat (1 + markers rest)) with (S (Z.to_nat (markers rest))) by lia.
      rewrite counters_S. destruct j; reflexivity.
    + edestruct (IH k (out ++ [strip line])%list) as (a' & ws & p & t & E & L & P & S1 & S2 & W & Q);
        [exact Hj | exact Hn | lia | lia |].
      rewrite E. exists a', ws, p, t.
      split; [cbn [map]; rewrite <- app_assoc; reflexivity|]. auto 10.
Qed.



(** ** Runs of [run_scan] that spawn the scanner *)

Lemma bind_val {S A B} (m : M S A) (k : A -> M S B) s x s' :
  m s = (Val x, s') -> bind m k s = k x s'.
Proof. intros H. unfold bind. rewrite H. reflexivity. Qed.

Lemma raise_eq {S A} e (s : S) : @raise S A e s = (Exc e, s).
Proof. reflexivity. Qed.

Lemma ret_eq {S A} (x : A) (s : S) : ret x s = (Val x, s).
Proof. reflexivity. Qed.

(** The runner's steps, to the end of the run. *)
Ltac exec_all :=
  repeat first
    [ progress exec
    | erewrite set_job_present by solve_lookup
    | rewrite raise_eq
    | rewrite ret_eq ].

Lemma suffix_nil {A} (s : list A) : s = ([] ++ s)%list.
Proof. reflexivity. Qed.

Lemma suffix_cons {A} (x : A) l l' s : l = (l' ++ s)%list -> x :: l = ((x :: l') ++ s)%list.
Proof. intros ->. reflexivity. Qed.

Lemma suffix_app {A} (w l l' s : list A) :
  l = (l' ++ s)%list -> (w ++ l)%list = ((w ++ l') ++ s)%list.
Proof. intros ->. apply app_assoc. Qed.

(** The log of writes as what was added to an earlier log. *)
Ltac suffix :=
  cbn [writes with_sso with_spawned after_write];
  repeat match goal with H : writes _ = _ |- _ => rewrite H end;
  cbn [writes with_sso with_spawned after_write];
  repeat first [apply suffix_nil | apply suffix_cons | apply suffix_app].

(** The loop of the run at hand, by [read_output_spec]. *)
Ltac loop id :=
  match goal with
  | |- context [bind (read_output id ?n ?l ?k ?o) ?K ?st] =>
      let a1 := fresh "a1" in let ws := fresh "ws" in let pp := fresh "pp" in
      let t := fresh "t" in let E := fresh "E" in let L := fresh "L" in
      let P := fresh "P" in let S1 := fresh "S1" in let S2 := fresh "S2" in
      let W := fresh "W" in let Q := fresh "Q" in
      destruct (read_output_spec id n l k o st _ ltac:(solve_lookup) ltac:(lia) ltac:(lia) ltac:(lia))
        as (a1 & ws & pp & t & E & L & P & S1 & S2 & W & Q);
      rewrite (bind_val _ K _ _ _ E)
  end.

(** C5, where the code departs from it: a run that does not go through SSO,
    whose scanner exits with status 0 and whose look into the report
    directory raises, first records the status completed (with progress 100
    and the completion time) and then, in the handler of the exception,
    overwrites it with failed: the status reaches a terminal value twice,
    and the job ends failed with progress 100 and a completion time. *)
Theorem run_scan_completed_then_failed id request io a j p e :
  PyDict.lookup id (scan_jobs a) = Some j ->
  default false (use_sso request) = false ->
  popen io = Answer p ->
  returncode p = 0 ->
  1 <= Z.of_nat (length (services request)) <= Z.of_nat max_services ->
  markers (stdout_lines p) <= Z.of_nat max_markers ->
  reports_dir io = Fails e ->
  let out := run_scan id request io a in
  fst out = Val tt
  /\ (exists earlier,
        map status (written_since (writes a) (writes (snd out)))
        = (earlier ++ ["completed"; "completed"; "completed"; "completed";
                       "failed"; "failed"])%list)
  /\ exists j', get_scan_status id (snd out) = Some j'
       /\ status j' = "failed" /\ progress j' = 100
       /\ completed_at j' = Some (now_done io) /\ error j' = Some (exn_str e).
Proof.
  intros Hj Huse Hp Hrc Hn Hm Hrd out. subst out.
  enough (exists a' l,
            run_scan id request io a = (Val tt, a')
            /\ writes a' = (l ++ writes a)%list
            /\ (exists earlier,
                  map status (List.rev l)
                  = (earlier ++ ["completed"; "completed"; "completed"; "completed";
                                 "failed"; "failed"])%list)
            /\ exists j', PyDict.lookup id (scan_jobs a') = Some j'
                 /\ status j' = "failed" /\ progress j' = 100
                 /\ completed_at j' = Some (now_done io) /\ error j' = Some (exn_str e))
    as (a' & l & -> & W & H1 & H2).
  { cbn [fst snd]. rewrite W, written_since_app. auto. }
  unfold run_scan, catch. exec. rewrite Huse. cbn [andb].
  destruct (nonempty (aws_profile request)) as [profile|];
    (exec; rewrite Hp; exec; loop id; rewrite Hrc; change (0 =? 0) with true;
     exec_all; rewrite Hrd; exec_all;
     eexists; eexists; split; [reflexivity|];
     split; [suffix|];
     split;
     [ cbn [List.rev]; rewrite !map_app, <- !app_assoc; cbn [map List.app];
       eexists; reflexivity
     | eexists; split; [apply lookup_after_write|]; repeat split ]).
Qed.

Lemma run_scan_completed_then_failed_witness :
  let request := {| regions := ["us-east-1"]; services := ["s3"; "ec2"];
                    frameworks := None; aws_profile := Some "dev";
                    sso_account_id := None; sso_role_name := None;
                    use_sso := Some false |} in
  let p := Process ["Processing s3" ++ String "010"%char "";
                    "Scanning ec2" ++ String "010"%char ""] 0 in
  let e := Exn OSError "[Errno 20] Not a directory: '/opt/screener/adminlte/aws'" in
  let io := ScanInputs "/usr/bin/python3" "/opt/screener/main.py" ∅ 0
              (Fails (Exn OtherException "not asked"))
              (Answer p) 5000 (Fails e) in
  let a := snd (start_scan request "1a2b3c4d" 1000 empty_app) in
  let out := run_scan "1a2b3c4d" request io a in
  PyDict.lookup "1a2b3c4d" (scan_jobs a) = Some (pending_job request "1a2b3c4d" 1000)
  /\ default false (use_sso request) = false
  /\ popen io = Answer p
  /\ returncode p = 0
  /\ 1 <= Z.of_nat (length (services request)) <= Z.of_nat max_services
  /\ markers (stdout_lines p) <= Z.of_nat max_markers
  /\ reports_dir io = Fails e
  /\ fst out = Val tt
  /\ map status (written_since (writes a) (writes (snd out)))
     = ["running"; "running"; "running"; "running"; "running";
        "running"; "running"; "running"; "running";
        "completed"; "completed"; "completed"; "completed"; "failed"; "failed"].
Proof.
  intros request p e io a out.
  split; [reflexivity|]. split; [reflexivity|]. split; [reflexivity|].
  split; [reflexivity|]. split; [vm_compute; split; discriminate|].
  split; [vm_compute; discriminate|]. split; [reflexivity|].
  pose proof (run_scan_completed_then_failed "1a2b3c4d" request io a
                (pending_job request "1a2b3c4d" 1000) p e
                eq_refl eq_refl eq_refl eq_refl
                ltac:(vm_compute; split; discriminate)
                ltac:(vm_compute; discriminate) eq_refl) as H.
  split; [exact (proj1 H) | reflexivity].
Defined.

(** ** Further properties of the SSO handler *)

(** X1: The region read off a URL: for an awsapps.com URL, the first of the
    known regions, in the order in which the detector tries them, whose name
    occurs in the URL (letter case aside), and us-east-1 when none does or
    for any other URL.  The tests with dots around the name decide nothing.
    The result is always one of the known regions. *)
Theorem detect_region_first_match url :
  detect_region_from_url url
  = (if contains "awsapps.com" (lower url)
     then default "us-east-1" (find (fun r => contains r (lower url)) known_regions)
     else "us-east-1")
  /\ In (detect_region_from_url url) known_regions.
Proof.
  assert (H : detect_region_from_url url
              = if contains "awsapps.com" (lower url)
                then default "us-east-1"
                       (find (fun r => contains r (lower url)) known_regions)
                else "us-east-1").
  { unfold detect_region_from_url, known_regions.
    set (u := lower url). clearbody u.
    destruct (contains "awsapps.com" u); [|reflexivity].
    cbn [find].
    repeat match goal with
           | |- context [contains ?r u || contains ?s u] =>
               let E := fresh "E" in
               destruct (contains s u) eqn:E;
               [ rewrite orb_true_r; reflexivity
               | let H' := fresh in
                 pose proof (dotted_absent s u E) as H';
                 cbv [String.append] in H'; rewrite H'; clear H'; cbn [orb] ]
           end.
    reflexivity. }
  split; [exact H|].
  rewrite H. destruct (contains "awsapps.com" (lower url)); [|left; reflexivity].
  destruct (find _ known_regions) as [r|] eqn:E; [|left; reflexivity].
  apply find_some in E. exact (proj1 E).
Qed.

(** X2: A poll that the provider answers with a token: from then on the handler
    is authenticated exactly until the token's expiry ([now] of the poll
    plus [expiresIn] seconds), the status endpoint reports that expiry, and
    the device code stays in place (a later poll asks the provider again). *)
Theorem poll_success_authenticated region now t w :
  truthy (device_code (sso w)) = true ->
  truthy (client_id (sso w)) = true ->
  truthy (Some (accessToken t)) = true ->
  let w' := snd (poll_for_token region now (Answer t) w) in
  let expiry := now + seconds (tokenExpiresIn t) in
  (forall now', is_authenticated now' (sso w') = (now' <? expiry))
  /\ (forall now', sso_status now' (sso w') = (now' <? expiry, Some expiry))
  /\ device_code (sso w') = device_code (sso w).
Proof.
  intros Hd Hc Ht w' expiry. subst w' expiry.
  destruct (poll_for_token_spec region now (Answer t) w Hd Hc) as (c & h1 & Hg & Heq).
  destruct (get_sso_oidc_client_spec region w)
    as (c' & h1' & Hg' & _ & _ & Hdev & _).
  rewrite Hg in Hg'. injection Hg' as <- <-.
  cbv zeta in Heq. rewrite Heq. cbn [snd sso].
  assert (Ha : forall now',
             is_authenticated now'
               (set_token_expiry (Some (now + seconds (tokenExpiresIn t)))
                  (set_access_token (Some (accessToken t)) h1))
             = (now' <? now + seconds (tokenExpiresIn t))).
  { intros now'. unfold is_authenticated. cbn.
    destruct (accessToken t); [discriminate Ht | reflexivity]. }
  split; [exact Ha|]. split.
  - intros now'. unfold sso_status. rewrite Ha. reflexivity.
  - cbn. exact Hdev.
Qed.

Lemma poll_success_authenticated_witness :
  let t := TokenResponse "token-1" 3600 None in
  let w' := snd (poll_for_token "us-east-1" 0 (Answer t) started_world) in
  truthy (device_code (sso started_world)) = true
  /\ truthy (client_id (sso started_world)) = true
  /\ truthy (Some (accessToken t)) = true
  /\ (forall now', is_authenticated now' (sso w') = (now' <? 0 + seconds 3600)).
Proof.
  intros t w'.
  split; [reflexivity|]. split; [reflexivity|]. split; [reflexivity|].
  exact (proj1 (poll_success_authenticated "us-east-1" 0 t started_world
                  eq_refl eq_refl eq_refl)).
Defined.


(** X4: Once the handler holds an SSO client, the [region] argument of the
    account, role and credential operations is ignored: the requests go
    through the client at hand, built for whatever region it was first asked
    for. *)
Theorem sso_client_cached_region_ignored c w :
  sso_client (sso w) = Some c ->
  (forall account_id role_name region region' answer,
     get_role_credentials account_id role_name region answer w
     = get_role_credentials account_id role_name region' answer w)
  /\ (forall region region' pages,
        list_accounts region pages w = list_accounts region' pages w)
  /\ (forall account_id region region' pages,
        list_account_roles account_id region pages w
        = list_account_roles account_id region' pages w)
  /\ (forall account_id role_name region answer,
        truthy (access_token (sso w)) = true ->
        sent (snd (get_role_credentials account_id role_name region answer w))
        = GetRoleCredentials c (access_token (sso w)) account_id role_name :: sent w).
Proof.
  intros Hc. destruct w as [h s]. cbn in Hc.
  repeat split; intros.
  - unfold get_role_credentials, get_sso_client. run.
    destruct (truthy (access_token h)); simpl; rewrite ?Hc; reflexivity.
  - unfold list_accounts, get_sso_client. run.
    destruct (truthy (access_token h)); simpl; rewrite ?Hc; reflexivity.
  - unfold list_account_roles, get_sso_client. run.
    destruct (truthy (access_token h)); simpl; rewrite ?Hc; reflexivity.
  - unfold get_role_credentials, get_sso_client. run.
    match goal with H : truthy _ = true |- _ => rewrite H end.
    simpl. rewrite Hc. destruct answer; reflexivity.
Qed.

Lemma sso_client_cached_region_ignored_witness :
  let w := snd (get_role_credentials "111122223333" "Auditor" (Some "eu-west-1")
                  (Fails (Exn OtherException "throttled")) authorized_world) in
  sso_client (sso w) = Some (Client "sso" (Some "eu-west-1"))
  /\ sent (snd (get_role_credentials "111122223333" "Auditor" (Some "us-east-1")
                  (Fails (Exn OtherException "throttled")) w))
     = GetRoleCredentials (Client "sso" (Some "eu-west-1")) (access_token (sso w))
         "111122223333" "Auditor" :: sent w.
Proof.
  intros w. split; [reflexivity|].
  apply (proj2 (proj2 (proj2 (sso_client_cached_region_ignored
                                (Client "sso" (Some "eu-west-1")) w eq_refl)))).
  reflexivity.
Defined.

(** The paginated loop: it returns the items of the pages up to the first
    one that fails, sends one request per page asked for, and leaves the
    handler alone. *)
Lemma paginate_spec {A} rq (pages : list (reply (option (list A)))) : forall acc w,
  paginate rq pages acc w
  = (Val (acc ++ gathered pages)%list,
     World (sso w) (repeat rq (fetched pages) ++ sent w)%list).
Proof.
  induction pages as [|page rest IH]; intros acc w.
  - cbn. rewrite app_nil_r. destruct w; reflexivity.
  - cbn [paginate]. unfold catch, bind, call. destruct page as [items|e].
    + rewrite IH. cbn [gathered fetched sso sent repeat].
      rewrite <- app_assoc.
      replace (repeat rq (fetched rest) ++ rq :: sent w)%list
        with (rq :: repeat rq (fetched rest) ++ sent w)%list; [reflexivity|].
      rewrite app_comm_cons, repeat_cons, <- app_assoc. reflexivity.
    + cbn. rewrite app_nil_r. reflexivity.
Qed.

Lemma list_accounts_eq region pages w :
  exists c,
    list_accounts region pages w
    = if truthy (access_token (sso w)) then
        (Val (gathered pages),
         World (set_sso_client (Some c) (sso w))
           (repeat (ListAccounts c (access_token (sso w))) (fetched pages) ++ sent w)%list)
      else (Val [], w).
Proof.
  unfold list_accounts. unfold bind at 1, self.
  destruct (truthy (access_token (sso w))) eqn:Et; cbn [negb].
  - destruct (get_sso_client_sso (Some region) w) as [c Hc]. exists c.
    unfold bind. rewrite Hc. rewrite paginate_spec. reflexivity.
  - exists (Client "sso" None). reflexivity.
Qed.




(** X7: [reset] brings the handler back to the state [__init__] builds and sends
    nothing; after it nobody is authenticated, a poll is refused for lack of
    a login in progress and the listing of accounts is empty, all without a
    request to the provider. *)
Theorem reset_initial w :
  reset w = (Val tt, World init_handler (sent w))
  /\ (forall now, is_authenticated now (sso (snd (reset w))) = false)
  /\ (forall now answer,
        sso_poll now answer (snd (reset w))
        = (Val (PollStatus "error"
                  "No SSO login in progress. Please start SSO login first."),
           snd (reset w)))
  /\ (forall region pages,
        list_accounts region pages (snd (reset w)) = (Val [], snd (reset w)))
  /\ (forall account_id role_name region answer,
        get_role_credentials account_id role_name region answer (snd (reset w))
        = (Val (CredsError "Not authenticated"), snd (reset w))).
Proof.
  assert (H : reset w = (Val tt, World init_handler (sent w))) by reflexivity.
  rewrite H. repeat split.
Qed.

(** *** Starting a login *)

Lemma detect_region_nonempty url :
  exists a r, detect_region_from_url url = String a r.
Proof.
  unfold detect_region_from_url.
  repeat match goal with
         | |- context [if ?b then _ else _] => destruct b
         end; eauto.
Qed.

Lemma requested_region_nonempty url region :
  exists a r, requested_region url region = String a r.
Proof.
  unfold requested_region. destruct (nonempty region) as [s|] eqn:E.
  - destruct region as [[|a r]|]; try discriminate. injection E as <-. eauto.
  - apply detect_region_nonempty.
Qed.

(** X8: The start endpoint never raises.  When the client registration fails it
    answers with the error text, only the registration request was sent,
    and the device code and the token are as before; if the login was to be
    in another region than the handler's, the old client registration is
    gone, so that the poll endpoint refuses to poll without asking the
    provider. *)
Theorem sso_start_registration_fails rq e auth w :
  let out := sso_start rq (Fails e) auth w in
  let rg := requested_region (start_url rq) (region rq) in
  fst out = Val (SsoStartError (exn_str e))
  /\ (exists c, sent (snd out) = RegisterClient c "ServiceScreenerWebGUI" "public" :: sent w)
  /\ device_code (sso (snd out)) = device_code (sso w)
  /\ access_token (sso (snd out)) = access_token (sso w)
  /\ token_expiry (sso (snd out)) = token_expiry (sso w)
  /\ (current_region (sso w) <> Some rg ->
      forall now answer,
        sso_poll now answer (snd out)
        = (Val (PollStatus "error" "SSO client not registered. Please restart SSO login."),
           snd out)).
Proof.
  intros out rg. subst out.
  destruct (requested_region_nonempty (start_url rq) (region rq)) as (a & r & Hne).
  fold rg in Hne.
  assert (Hrg : match region rq with
                | Some (String a r) => String a r
                | _ => detect_region_from_url (start_url rq)
                end = rg).
  { subst rg. unfold requested_region. destruct (region rq) as [[|? ?]|]; reflexivity. }
  unfold sso_start, start_device_authorization. rewrite Hrg. clearbody rg. clear Hrg.
  destruct w as [h s]. unfold register_client, get_sso_oidc_client. run.
  destruct (bool_decide (current_region h = Some rg)) eqn:E; simpl.
  - apply bool_decide_eq_true in E.
    destruct (sso_oidc_client h) as [c|] eqn:Ec; simpl;
      (split; [reflexivity|]; split; [eexists; reflexivity|];
       repeat (split; [reflexivity|]); intros Hn; contradiction).
  - split; [reflexivity|]. split; [eexists; reflexivity|].
    repeat (split; [reflexivity|]). intros _ now answer.
    unfold sso_poll. run. rewrite Hne. reflexivity.
Qed.

(** X9: A login that the provider accepts, then a poll: the token request
    carries the client id and secret of the registration just answered and
    the device code of the authorization just answered. *)
Theorem sso_start_then_poll rq resp d w now answer :
  truthy (Some (clientId resp)) = true ->
  truthy (Some (deviceCode d)) = true ->
  let w' := snd (sso_start rq (Answer resp) (Answer d) w) in
  exists c,
    sent (snd (sso_poll now answer w'))
    = CreateToken c (Some (clientId resp)) (Some (clientSecret resp))
        "urn:ietf:params:oauth:grant-type:device_code" (Some (deviceCode d))
      :: sent w'.
Proof.
  intros Hid Hdev w'.
  destruct (requested_region_nonempty (start_url rq) (region rq)) as (a & r & Hne).
  destruct (start_device_authorization_spec (start_url rq) (region rq)
              (Answer resp) (Answer d) w) as (c0 & Hcur & _ & _ & Hcid & Hsec & _ & _ & Hdc).
  assert (Hw : w' = snd (start_device_authorization (start_url rq) (region rq)
                           (Answer resp) (Answer d) w)).
  { subst w'. unfold sso_start, catch, bind.
    destruct (start_device_authorization (start_url rq) (region rq)
                (Answer resp) (Answer d) w) as [[x| |e'] w1]; reflexivity. }
  rewrite <- Hw in *. clearbody w'. clear Hw.
  rewrite Hne in Hcur.
  unfold sso_poll. unfold bind at 1, self. rewrite Hcur, Hcid, Hid. cbn [negb].
  assert (Hd' : truthy (device_code (sso w')) = true) by (rewrite Hdc; exact Hdev).
  assert (Hc' : truthy (client_id (sso w')) = true) by (rewrite Hcid; exact Hid).
  destruct (poll_for_token_spec (String a r) now answer w' Hd' Hc') as (c & h1 & Hg & Heq).
  destruct (get_sso_oidc_client_spec (String a r) w')
    as (c' & h1' & Hg' & _ & _ & Hdev1 & _ & _ & Hsame & _).
  rewrite Hg in Hg'. injection Hg' as <- <-.
  destruct (Hsame Hcur) as [Hid1 Hsec1].
  exists c. cbv zeta in Heq. rewrite Heq.
  rewrite Hid1, Hsec1, Hdev1, Hcid, Hsec, Hdc.
  destruct answer as [t|e']; [reflexivity|].
  destruct (exn_cls e'); reflexivity.
Qed.

Lemma sso_start_then_poll_witness :
  let rq := parse_SSOStartRequest "https://acme.awsapps.com/start" Omitted in
  let resp := RegisterResponse "client-1" "secret-1" 100 in
  let d := DeviceAuthResponse "device-1" "ABCD-EFGH" "https://device.sso/"
             "https://device.sso/?user_code=ABCD-EFGH" 600 5 in
  let w' := snd (sso_start rq (Answer resp) (Answer d) (World init_handler [])) in
  truthy (Some (clientId resp)) = true
  /\ truthy (Some (deviceCode d)) = true
  /\ exists c,
       sent (snd (sso_poll 5 (Fails (Exn AuthorizationPendingException "pending")) w'))
       = CreateToken c (Some "client-1") (Some "secret-1")
           "urn:ietf:params:oauth:grant-type:device_code" (Some "device-1")
         :: sent w'.
Proof.
  intros rq resp d w'.
  split; [reflexivity|]. split; [reflexivity|].
  exact (sso_start_then_poll rq resp d (World init_handler []) 5
           (Fails (Exn AuthorizationPendingException "pending")) eq_refl eq_refl).
Defined.

(** *** The SSO endpoints *)

(** X10: Without a currently valid token (none at all, or one whose expiry has
    passed) the three data endpoints answer "Not authenticated", send
    nothing to the provider and leave the handler as it is. *)
Theorem sso_endpoints_require_valid_token now w :
  is_authenticated now (sso w) = false ->
  (forall request answer,
     sso_get_credentials request now answer w = (Val (CredsError "Not authenticated"), w))
  /\ (forall pages,
        sso_list_accounts now pages w = (Val (ListingError "Not authenticated" []), w))
  /\ (forall account_id pages,
        sso_list_roles account_id now pages w
        = (Val (ListingError "Not authenticated" []), w)).
Proof.
  intros H. repeat split; intros.
  - unfold sso_get_credentials, bind, self. rewrite H. reflexivity.
  - unfold sso_list_accounts, bind, self. rewrite H. reflexivity.
  - unfold sso_list_roles, bind, self. rewrite H. reflexivity.
Qed.

Lemma sso_endpoints_require_valid_token_witness :
  let now := seconds 3600 in
  is_authenticated now (sso authorized_world) = false
  /\ truthy (access_token (sso authorized_world)) = true
  /\ forall request answer,
       sso_get_credentials request now answer authorized_world
       = (Val (CredsError "Not authenticated"), authorized_world).
Proof.
  intros now. split; [reflexivity|]. split; [reflexivity|].
  exact (proj1 (sso_endpoints_require_valid_token now authorized_world eq_refl)).
Defined.

(** X11: With a valid token the accounts endpoint lists in the handler's current
    region (us-east-1 when there is none) and answers with the accounts of
    the pages up to the first failing one, without an ['error'] key even
    when a page failed. *)
Theorem sso_list_accounts_authenticated now pages w :
  is_authenticated now (sso w) = true ->
  fst (sso_list_accounts now pages w) = Val (Listing (gathered pages))
  /\ length (sent (snd (sso_list_accounts now pages w)))
     = (fetched pages + length (sent w))%nat
  /\ access_token (sso (snd (sso_list_accounts now pages w))) = access_token (sso w).
Proof.
  intros H.
  assert (Ht : truthy (access_token (sso w)) = true).
  { unfold is_authenticated in H. destruct (access_token (sso w)) as [[|]|]; try discriminate.
    reflexivity. }
  assert (E : exists c,
             sso_list_accounts now pages w
             = (Val (Listing (gathered pages)),
                World (set_sso_client (Some c) (sso w))
                  (repeat (ListAccounts c (access_token (sso w))) (fetched pages)
                   ++ sent w)%list)).
  { unfold sso_list_accounts. unfold bind at 1, self. rewrite H. cbn [negb].
    match goal with
    | |- context [list_accounts ?rg pages] =>
        destruct (list_accounts_eq rg pages w) as (c & Hl)
    end.
    rewrite Ht in Hl. exists c. unfold bind. rewrite Hl. reflexivity. }
  destruct E as (c & ->). cbn [fst snd sso sent].
  rewrite length_app, repeat_length. repeat split.
Qed.

Lemma sso_list_accounts_authenticated_witness :
  let pages := [Answer (Some [AccountInfo "111122223333" "prod" "ops@example.com"]);
                Fails (Exn OtherException "throttled");
                Answer (Some [AccountInfo "444455556666" "dev" "dev@example.com"])] in
  is_authenticated 1 (sso authorized_world) = true
  /\ fst (sso_list_accounts 1 pages authorized_world)
     = Val (Listing [AccountInfo "111122223333" "prod" "ops@example.com"]).
Proof.
  intros pages. split; [reflexivity|].
  exact (proj1 (sso_list_accounts_authenticated 1 pages authorized_world eq_refl)).
Defined.

(** ** Further properties of the job runner *)

Lemma scan_progress_le_90 k n p : scan_progress k n = Val p -> p <= 90.
Proof.
  unfold scan_progress. destruct (PyNum.truediv k n); try discriminate.
  destruct (PyNum.to_int _); try discriminate. intros [= <-]. lia.
Qed.

Lemma scan_progress_not_ret k n : scan_progress k n <> Ret.
Proof.
  unfold scan_progress, PyNum.truediv, PyNum.to_int.
  destruct (n =? 0); [discriminate|].
  destruct (SFdiv 53 1024 (PyNum.exact k) (PyNum.exact n)); try discriminate;
    destruct (PyNum.mul_int _ 80); discriminate.
Qed.

Lemma same_but_progress_refl j : same_but_progress j j.
Proof. exists (progress j), (current_task j). symmetry. apply set_same_fields. Qed.

(** The loop on any input, for a job that is in the table: it returns the
    counter and the lines, or it raises (when the progress expression
    does); the job is still there, only its progress and task text may have
    changed, and every record it wrote has a progress of at most 90. *)
Lemma read_output_any id n lines : forall k out a j,
  PyDict.lookup id (scan_jobs a) = Some j ->
  exists r a' ws j',
    read_output id n lines k out a = (r, a')
    /\ (r = Val (k + markers lines, (out ++ map strip (consumed lines))%list)
        \/ exists e, r = Exc e)
    /\ PyDict.lookup id (scan_jobs a') = Some j'
    /\ same_but_progress j j'
    /\ sso_handler a' = sso_handler a /\ spawned a' = spawned a
    /\ writes a' = (ws ++ writes a)%list
    /\ Forall (fun w => progress w <= 90 /\ same_but_progress j w) ws.
Proof.
  induction lines as [|line rest IH]; intros k out a j Hj.
  - exists (Val (k, out)), a, [], j. cbn [read_output].
    split; [reflexivity|]. split.
    { left. change (markers []) with 0. rewrite Z.add_0_r. cbn. rewrite app_nil_r. reflexivity. }
    split; [exact Hj|]. split; [apply same_but_progress_refl|]. auto.
  - cbn [read_output]. rewrite markers_cons, consumed_cons.
    destruct (String.eqb line "") eqn:El.
    { exists (Val (k, out)), a, [], j.
      split; [reflexivity|]. split.
      { left. rewrite Z.add_0_r. cbn. rewrite app_nil_r. reflexivity. }
      split; [exact Hj|]. split; [apply same_but_progress_refl|]. auto. }
    destruct (is_marker line) eqn:Em.
    + unfold bind at 1, pure.
      destruct (scan_progress (k + 1) n) as [p| |e] eqn:Ep.
      * exec.
        edestruct (IH (k + 1) (out ++ [strip line])%list) as
          (r & a' & ws & j' & E & Hr & L & Hs & S1 & S2 & W & F);
          [apply lookup_after_write|].
        rewrite E.
        exists r, a',
          (ws ++ [set_current_task (upto 100 (strip line)) (set_progress p j);
                  set_progress p j])%list, j'.
        split; [reflexivity|]. split.
        { destruct Hr as [-> | Hr]; [left | right; exact Hr].
          rewrite Z.add_assoc. cbn [map]. rewrite <- app_assoc. reflexivity. }
        split; [exact L|].
        assert (Hsame : forall x,
                  same_but_progress
                    (set_current_task (upto 100 (strip line)) (set_progress p j)) x ->
                  same_but_progress j x).
        { intros x (p' & t' & ->). exists p', t'. destruct j; reflexivity. }
        split; [apply Hsame, Hs|].
        split; [rewrite S1; reflexivity|].
        split; [rewrite S2; reflexivity|].
        split; [rewrite W, <- app_assoc; reflexivity|].
        apply scan_progress_le_90 in Ep.
        apply Forall_app. split.
        { eapply List.Forall_impl; [|exact F]. cbv beta. intros x [Hx1 Hx2].
          split; [exact Hx1 | apply Hsame, Hx2]. }
        repeat constructor; try (destruct j; exact Ep).
        -- exists p, (upto 100 (strip line)). reflexivity.
        -- exists p, (current_task j). destruct j; reflexivity.
      * exfalso. exact (scan_progress_not_ret _ _ Ep).
      * exists (Exc e), a, [], j.
        split; [reflexivity|]. split; [right; eauto|].
        split; [exact Hj|]. split; [apply same_but_progress_refl|]. auto.
    + edestruct (IH k (out ++ [strip line])%list) as
        (r & a' & ws & j' & E & Hr & L & Hs & S1 & S2 & W & F); [exact Hj|].
      rewrite E. exists r, a', ws, j'.
      split; [reflexivity|]. split.
      { destruct Hr as [-> | Hr]; [left | right; exact Hr].
        cbn [map]. rewrite <- app_assoc. reflexivity. }
      auto 10.
Qed.

Lemma bind_eq {S A B} (m : M S A) (k : A -> M S B) s r s' :
  m s = (r, s') ->
  bind m k s = match r with
               | Val x => k x s'
               | Ret => (Ret, s')
               | Exc e => (Exc e, s')
               end.
Proof. intros H. unfold bind. rewrite H. destruct r; reflexivity. Qed.

(** The loop of the run at hand, by [read_output_any]. *)
Ltac loop_any id :=
  match goal with
  | |- context [bind (read_output id ?n ?l ?k ?o) ?K ?st] =>
      let r := fresh "r" in let a1 := fresh "a1" in let ws := fresh "ws" in
      let j1 := fresh "j1" in let E := fresh "E" in let Hr := fresh "Hr" in
      let L := fresh "L" in let Hs := fresh "Hs" in
      let S1 := fresh "S1" in let S2 := fresh "S2" in
      let W := fresh "W" in let F := fresh "F" in
      let p0 := fresh "p0" in let t0 := fresh "t0" in let e0 := fresh "e0" in
      destruct (read_output_any id n l k o st _ ltac:(solve_lookup))
        as (r & a1 & ws & j1 & E & Hr & L & Hs & S1 & S2 & W & F);
      rewrite (bind_eq _ K _ _ _ E);
      destruct Hs as (p0 & t0 & ->);
      destruct Hr as [-> | [e0 ->]]
  end.

(** The end of a case: the outcome of the run by the lemma [H]. *)
Ltac fin H :=
  eapply H;
  [ first [left; reflexivity | right; reflexivity]
  | solve_lookup
  | first [ left; repeat split; reflexivity
          | right; split; [reflexivity | split; [reflexivity | eexists; reflexivity]] ]
  | reflexivity ].

(** The cases of a run from the spawning of the scanner on. *)
Ltac run_tail id io H :=
  destruct (popen io) as [?p|?e]; exec_all;
  [ loop_any id; cbv iota; exec_all;
    [ match goal with
      | |- context [returncode ?p =? 0] => destruct (returncode p =? 0)
      end; exec_all;
      [ destruct (reports_dir io) as [[?entries|]|?e]; exec_all;
        [ match goal with
          | |- context [find ?f ?l] => destruct (find f l)
          end; exec_all; fin H
        | fin H
        | fin H ]
      | fin H ]
    | fin H ]
  | fin H ].

(** The outcome of a run of a job that is in the table, case by case. *)
Lemma run_scan_outcome id request io a j :
  PyDict.lookup id (scan_jobs a) = Some j ->
  exists r a',
    run_scan id request io a = (r, a')
    /\ (r = Val tt \/ r = Ret)
    /\ exists j', PyDict.lookup id (scan_jobs a') = Some j'
         /\ (status j' = "completed" /\ progress j' = 100
              /\ completed_at j' = Some (now_done io) /\ error j' = error j
             \/ status j' = "failed" /\ report_path j' = report_path j
                /\ exists msg, error j' = Some msg)
         /\ identity j' = identity j.
Proof.
  intros Hj.
  assert (Hfin : forall (r : res unit) a' j',
            (r = Val tt \/ r = Ret) ->
            PyDict.lookup id (scan_jobs a') = Some j' ->
            (status j' = "completed" /\ progress j' = 100
              /\ completed_at j' = Some (now_done io) /\ error j' = error j
             \/ status j' = "failed" /\ report_path j' = report_path j
                /\ exists msg, error j' = Some msg) ->
            identity j' = identity j ->
            exists r0 a0,
              (r, a') = (r0, a0)
              /\ (r0 = Val tt \/ r0 = Ret)
              /\ exists j', PyDict.lookup id (scan_jobs a0) = Some j'
                   /\ (status j' = "completed" /\ progress j' = 100
                        /\ completed_at j' = Some (now_done io) /\ error j' = error j
                       \/ status j' = "failed" /\ report_path j' = report_path j
                          /\ exists msg, error j' = Some msg)
                   /\ identity j' = identity j).
  { intros r a' j' Hr Hl Hst Hid. exists r, a'. split; [reflexivity|].
    split; [exact Hr|]. exists j'. auto. }
  assert (Ht : is_authenticated (now_auth io) (sso (sso_handler a)) = true ->
               truthy (access_token (sso (sso_handler a))) = true).
  { unfold is_authenticated. destruct (access_token _) as [[|]|]; try discriminate.
    reflexivity. }
  unfold run_scan, catch. exec.
  destruct (default false (use_sso request)); cbn [andb];
    [destruct (is_authenticated (now_auth io) (sso (sso_handler a))) eqn:Hauth|].
  - exec.
    destruct (nonempty (sso_account_id request)) as [acct|];
      [destruct (nonempty (sso_role_name request)) as [role|]|].
    + rewrite bind_assoc.
      match goal with
      | |- context [get_role_credentials acct role ?rg ?ans] =>
          destruct (get_role_credentials_token_spec acct role rg ans
                      (sso_handler a) (Ht eq_refl)) as (c & h' & Hg & _)
      end.
      erewrite bind_on_sso by exact Hg.
      destruct (credentials io) as [cr|e]; exec_all.
      * run_tail id io Hfin.
      * fin Hfin.
    + exec_all. fin Hfin.
    + exec_all. fin Hfin.
  - destruct (nonempty (aws_profile request)); exec; run_tail id io Hfin.
  - destruct (nonempty (aws_profile request)); exec; run_tail id io Hfin.
Qed.


(** X12: Every run of a job that is in the table ends without raising, and when
    it ends the job is completed (progress 100, a completion time, the error
    as it was) or failed with an error text (the report path as it was); the
    job keeps its id, its creation time and its request. *)
Theorem run_scan_ends_terminal id request io a j :
  PyDict.lookup id (scan_jobs a) = Some j ->
  let out := run_scan id request io a in
  (fst out = Val tt \/ fst out = Ret)
  /\ exists j', get_scan_status id (snd out) = Some j'
       /\ (status j' = "completed" /\ progress j' = 100
            /\ completed_at j' = Some (now_done io) /\ error j' = error j
           \/ status j' = "failed" /\ report_path j' = report_path j
              /\ exists msg, error j' = Some msg)
       /\ identity j' = identity j.
Proof.
  intros Hj out. subst out.
  destruct (run_scan_outcome id request io a j Hj) as (r & a' & -> & H).
  exact H.
Qed.

Lemma run_scan_ends_terminal_witness :
  let out := run_scan "1a2b3c4d" both_request plain_inputs submitted_app in
  PyDict.lookup "1a2b3c4d" (scan_jobs submitted_app)
  = Some (pending_job both_request "1a2b3c4d" 1000)
  /\ (fst out = Val tt \/ fst out = Ret).
Proof.
  intros out. split; [reflexivity|].
  exact (proj1 (run_scan_ends_terminal "1a2b3c4d" both_request plain_inputs submitted_app
                  (pending_job both_request "1a2b3c4d" 1000) eq_refl)).
Defined.

(** X13: A run for a job id that is not in the table raises [KeyError] (the
    handler of the [try] fails on the same look-up), writes nothing and
    spawns nothing. *)
Theorem run_scan_unknown_job id request io a :
  get_scan_status id a = None ->
  run_scan id request io a = (Exc (key_error id), a).
Proof.
  unfold get_scan_status. intros H.
  unfold run_scan, catch. unfold bind at 1. rewrite set_job_absent by exact H.
  unfold bind. rewrite set_job_absent by exact H. reflexivity.
Qed.

Lemma run_scan_unknown_job_witness :
  get_scan_status "0badc0de" submitted_app = None
  /\ run_scan "0badc0de" both_request plain_inputs submitted_app
     = (Exc (key_error "0badc0de"), submitted_app).
Proof.
  split; [reflexivity|].
  exact (run_scan_unknown_job "0badc0de" both_request plain_inputs submitted_app eq_refl).
Defined.

(** X14: A run touches no other job: the table keeps its keys in their order,
    every record keeps its id, creation time and request, and the records
    of the other jobs are what they were. *)
Theorem run_scan_other_jobs id request io a :
  let a' := snd (run_scan id request io a) in
  PyDict.keys (scan_jobs a') = PyDict.keys (scan_jobs a)
  /\ map identity (list_scans a') = map identity (list_scans a)
  /\ forall k, k <> id -> get_scan_status k a' = get_scan_status k a.
Proof. exact (run_scan_frame id request io a). Qed.

(** X15: The loop never records a progress above 90, whatever the number of
    services and the lines, and also when it ends by raising. *)
Theorem read_output_at_most_90 id n lines k out a j :
  PyDict.lookup id (scan_jobs a) = Some j ->
  Forall (fun w => progress w <= 90)
    (written_since (writes a) (writes (snd (read_output id n lines k out a)))).
Proof.
  intros Hj.
  destruct (read_output_any id n lines k out a j Hj)
    as (r & a' & ws & j' & E & _ & _ & _ & _ & _ & W & F).
  rewrite E. cbn [snd]. rewrite W, written_since_app.
  apply List.Forall_rev. eapply List.Forall_impl; [|exact F].
  cbv beta. intros w [H _]. exact H.
Qed.

Lemma read_output_at_most_90_witness :
  let lines := ["Scanning s3" ++ String "010"%char "";
                "Scanning ec2" ++ String "010"%char "";
                "Scanning rds" ++ String "010"%char ""] in
  PyDict.lookup "1a2b3c4d" (scan_jobs submitted_app)
  = Some (pending_job both_request "1a2b3c4d" 1000)
  /\ Forall (fun w => progress w <= 90)
       (written_since (writes submitted_app)
          (writes (snd (read_output "1a2b3c4d" 2 lines 0 [] submitted_app)))).
Proof.
  intros lines. split; [reflexivity|].
  exact (read_output_at_most_90 "1a2b3c4d" 2 lines 0 [] submitted_app
           (pending_job both_request "1a2b3c4d" 1000) eq_refl).
Defined.

(** With no service in the request, the first marker line of the scanner
    makes the progress expression divide by zero. *)
Lemma read_output_zero id lines : forall k out a,
  0 < markers lines ->
  read_output id 0 lines k out a = (Exc (Exn ZeroDivisionError "division by zero"), a).
Proof.
  induction lines as [|line rest IH]; intros k out a Hm.
  - change (markers []) with 0 in Hm. lia.
  - rewrite markers_cons in Hm. cbn [read_output].
    destruct (String.eqb line ""); [lia|].
    destruct (is_marker line).
    + reflexivity.
    + apply IH. exact Hm.
Qed.

(** *** Runs outside the SSO branch *)

(** The run up to the choice of credentials, outside the SSO branch. *)
Ltac run_prefix H :=
  unfold run_scan, catch; exec;
  let H' := fresh in
  pose proof H as H'; unfold sso_branch in H'; rewrite H'; clear H';
  destruct (nonempty (aws_profile _)) as [?profile|]; exec.

(** X16: A scanner that exits with a status other than 0: the job is failed, and
    its error text gives the exit status and the last ten lines of the
    scanner's output, stripped ("No output" when there were none); the
    progress stays where the loop left it, and neither a completion time
    nor a report path is recorded. *)
Theorem run_scan_exit_nonzero id request io a j p :
  PyDict.lookup id (scan_jobs a) = Some j ->
  sso_branch request io a = false ->
  popen io = Answer p ->
  (returncode p =? 0) = false ->
  1 <= Z.of_nat (length (services request)) <= Z.of_nat max_services ->
  markers (stdout_lines p) <= Z.of_nat max_markers ->
  let out := run_scan id request io a in
  let lines := map strip (consumed (stdout_lines p)) in
  fst out = Val tt
  /\ exists j', get_scan_status id (snd out) = Some j'
       /\ status j' = "failed"
       /\ error j'
          = Some ("Scan failed (exit code " ++ PyNum.str (returncode p)
                  ++ "). Last output:" ++ String "010"%char ""
                  ++ match lines with
                     | [] => "No output"
                     | _ => join (String "010"%char "") (last_n 10 lines)
                     end)
       /\ progress j'
          = (if markers (stdout_lines p) =? 0 then 10
             else exact_progress (markers (stdout_lines p))
                    (Z.of_nat (length (services request))))
       /\ completed_at j' = completed_at j
       /\ report_path j' = report_path j.
Proof.
  intros Hj Hsso Hp Hrc Hn Hm out lines. subst out lines.
  enough (exists a',
            run_scan id request io a = (Val tt, a')
            /\ exists j', PyDict.lookup id (scan_jobs a') = Some j'
                 /\ status j' = "failed"
                 /\ error j'
                    = Some ("Scan failed (exit code " ++ PyNum.str (returncode p)
                            ++ "). Last output:" ++ String "010"%char ""
                            ++ match map strip (consumed (stdout_lines p)) with
                               | [] => "No output"
                               | _ => join (String "010"%char "")
                                        (last_n 10 (map strip (consumed (stdout_lines p))))
                               end)
                 /\ progress j'
                    = (if markers (stdout_lines p) =? 0 then 10
                       else exact_progress (markers (stdout_lines p))
                              (Z.of_nat (length (services request))))
                 /\ completed_at j' = completed_at j
                 /\ report_path j' = report_path j)
    as (a' & -> & H); [split; [reflexivity | exact H]|].
  run_prefix Hsso;
    (rewrite Hp; exec; loop id; rewrite Hrc; exec_all;
     eexists; split; [reflexivity|];
     eexists; split; [apply lookup_after_write|];
     split; [reflexivity|]; split; [reflexivity|];
     split; [cbn; rewrite P; reflexivity|]; split; reflexivity).
Qed.

Lemma run_scan_exit_nonzero_witness :
  let out := run_scan "5e6f7a8b" profile_request failing_inputs profile_app in
  PyDict.lookup "5e6f7a8b" (scan_jobs profile_app)
  = Some (pending_job profile_request "5e6f7a8b" 2000)
  /\ sso_branch profile_request failing_inputs profile_app = false
  /\ (2 =? 0) = false
  /\ fst out = Val tt
  /\ option_map error (get_scan_status "5e6f7a8b" (snd out))
     = Some (Some ("Scan failed (exit code 2). Last output:" ++ String "010"%char ""
                   ++ "Processing s3" ++ String "010"%char "" ++ "AccessDenied")).
Proof.
  intros out. split; [reflexivity|]. split; [reflexivity|]. split; [reflexivity|].
  pose proof (run_scan_exit_nonzero "5e6f7a8b" profile_request failing_inputs profile_app
                (pending_job profile_request "5e6f7a8b" 2000)
                (Process ["Processing s3" ++ String "010"%char "";
                          "  AccessDenied  " ++ String "010"%char ""] 2)
                eq_refl eq_refl eq_refl eq_refl
                ltac:(vm_compute; split; discriminate)
                ltac:(vm_compute; discriminate)) as H.
  split; [exact (proj1 H) | reflexivity].
Defined.

(** X17: A scanner that exits with status 0, when the look into the report
    directory succeeds: the job is completed with progress 100 and the
    completion time, the error is as it was, and the report path is that of
    the first all-digit directory of the listing, whatever account was
    scanned; without such a directory the report path is as it was. *)
Theorem run_scan_completed id request io a j p listing :
  PyDict.lookup id (scan_jobs a) = Some j ->
  sso_branch request io a = false ->
  popen io = Answer p ->
  returncode p = 0 ->
  1 <= Z.of_nat (length (services request)) <= Z.of_nat max_services ->
  markers (stdout_lines p) <= Z.of_nat max_markers ->
  reports_dir io = Answer listing ->
  let out := run_scan id request io a in
  fst out = Val tt
  /\ exists j', get_scan_status id (snd out) = Some j'
       /\ status j' = "completed"
       /\ progress j' = 100
       /\ current_task j' = "Scan completed successfully"
       /\ completed_at j' = Some (now_done io)
       /\ error j' = error j
       /\ report_path j'
          = match listing with
            | Some entries =>
                match first_report entries with
                | Some path => Some path
                | None => report_path j
                end
            | None => report_path j
            end.
Proof.
  intros Hj Hsso Hp Hrc Hn Hm Hrd out. subst out.
  enough (exists a',
            run_scan id request io a = (Val tt, a')
            /\ exists j', PyDict.lookup id (scan_jobs a') = Some j'
                 /\ status j' = "completed"
                 /\ progress j' = 100
                 /\ current_task j' = "Scan completed successfully"
                 /\ completed_at j' = Some (now_done io)
                 /\ error j' = error j
                 /\ report_path j'
                    = match listing with
                      | Some entries =>
                          match first_report entries with
                          | Some path => Some path
                          | None => report_path j
                          end
                      | None => report_path j
                      end)
    as (a' & -> & H); [split; [reflexivity | exact H]|].
  unfold first_report.
  run_prefix Hsso;
    (rewrite Hp; exec; loop id; rewrite Hrc; change (0 =? 0) with true;
     exec_all; rewrite Hrd;
     destruct listing as [entries|];
     [ destruct (find _ entries) as [d|] |]; exec_all;
     (eexists; split; [reflexivity|];
      eexists; split; [solve_lookup|]; repeat split)).
Qed.

Lemma run_scan_completed_witness :
  let out := run_scan "5e6f7a8b" profile_request plain_inputs profile_app in
  PyDict.lookup "5e6f7a8b" (scan_jobs profile_app)
  = Some (pending_job profile_request "5e6f7a8b" 2000)
  /\ sso_branch profile_request plain_inputs profile_app = false
  /\ fst out = Val tt
  /\ option_map report_path (get_scan_status "5e6f7a8b" (snd out))
     = Some (Some "/reports/111122223333/index.html").
Proof.
  intros out. split; [reflexivity|]. split; [reflexivity|].
  pose proof (run_scan_completed "5e6f7a8b" profile_request plain_inputs profile_app
                (pending_job profile_request "5e6f7a8b" 2000)
                (Process ["Processing s3" ++ String "010"%char "";
                          "... 12 buckets" ++ String "010"%char "";
                          "Scanning ec2" ++ String "010"%char ""] 0)
                (Some [DirEntry "res" true; DirEntry "111122223333" true])
                eq_refl eq_refl eq_refl eq_refl
                ltac:(vm_compute; split; discriminate)
                ltac:(vm_compute; discriminate) eq_refl) as H.
  split; [exact (proj1 H) | reflexivity].
Defined.

(** X18: When [Popen] itself raises (the interpreter is not there, say), the job
    is failed with the text of that exception, at progress 10. *)
Theorem run_scan_popen_fails id request io a j e :
  PyDict.lookup id (scan_jobs a) = Some j ->
  sso_branch request io a = false ->
  popen io = Fails e ->
  let out := run_scan id request io a in
  fst out = Val tt
  /\ exists j', get_scan_status id (snd out) = Some j'
       /\ status j' = "failed"
       /\ error j' = Some (exn_str e)
       /\ progress j' = 10.
Proof.
  intros Hj Hsso Hp out. subst out.
  enough (exists a',
            run_scan id request io a = (Val tt, a')
            /\ exists j', PyDict.lookup id (scan_jobs a') = Some j'
                 /\ status j' = "failed"
                 /\ error j' = Some (exn_str e)
                 /\ progress j' = 10)
    as (a' & -> & H); [split; [reflexivity | exact H]|].
  run_prefix Hsso;
    (rewrite Hp; exec_all;
     eexists; split; [reflexivity|];
     eexists; split; [solve_lookup|]; repeat split).
Qed.

Lemma run_scan_popen_fails_witness :
  let e := Exn OSError "[Errno 2] No such file or directory: '/usr/bin/python3'" in
  let io := ScanInputs "/usr/bin/python3" "/opt/screener/main.py" ∅ 0
              (Fails (Exn OtherException "not asked")) (Fails e) 5000 (Answer None) in
  let out := run_scan "5e6f7a8b" profile_request io profile_app in
  PyDict.lookup "5e6f7a8b" (scan_jobs profile_app)
  = Some (pending_job profile_request "5e6f7a8b" 2000)
  /\ sso_branch profile_request io profile_app = false
  /\ fst out = Val tt.
Proof.
  intros e io out. split; [reflexivity|]. split; [reflexivity|].
  exact (proj1 (run_scan_popen_fails "5e6f7a8b" profile_request io profile_app
                  (pending_job profile_request "5e6f7a8b" 2000) e
                  eq_refl eq_refl eq_refl)).
Defined.

(** X19: A request with an empty list of services: as soon as the scanner prints
    a marker line, the run fails with "division by zero", whatever the
    scanner goes on to do and whatever its exit status. *)
Theorem run_scan_no_services id request io a j p :
  PyDict.lookup id (scan_jobs a) = Some j ->
  sso_branch request io a = false ->
  services request = [] ->
  popen io = Answer p ->
  0 < markers (stdout_lines p) ->
  let out := run_scan id request io a in
  fst out = Val tt
  /\ exists j', get_scan_status id (snd out) = Some j'
       /\ status j' = "failed"
       /\ error j' = Some "division by zero"
       /\ progress j' = 10.
Proof.
  intros Hj Hsso Hs Hp Hm out. subst out.
  enough (exists a',
            run_scan id request io a = (Val tt, a')
            /\ exists j', PyDict.lookup id (scan_jobs a') = Some j'
                 /\ status j' = "failed"
                 /\ error j' = Some "division by zero"
                 /\ progress j' = 10)
    as (a' & -> & H); [split; [reflexivity | exact H]|].
  run_prefix Hsso;
    (rewrite Hp; exec; rewrite Hs; cbn [length]; change (Z.of_nat 0) with 0;
     match goal with
     | |- context [bind (read_output id 0 ?l ?k ?o) ?K ?st] =>
         rewrite (bind_eq _ K _ _ _ (read_output_zero id l k o st Hm))
     end;
     exec_all;
     eexists; split; [reflexivity|];
     eexists; split; [solve_lookup|]; repeat split).
Qed.

Lemma run_scan_no_services_witness :
  let request := {| regions := ["us-east-1"]; services := []; frameworks := None;
                    aws_profile := None; sso_account_id := None; sso_role_name := None;
                    use_sso := None |} in
  let a := snd (start_scan request "5e6f7a8b" 2000 empty_app) in
  let out := run_scan "5e6f7a8b" request plain_inputs a in
  PyDict.lookup "5e6f7a8b" (scan_jobs a) = Some (pending_job request "5e6f7a8b" 2000)
  /\ sso_branch request plain_inputs a = false
  /\ services request = []
  /\ 0 < markers (stdout_lines (Process ["Processing s3" ++ String "010"%char "";
                                         "... 12 buckets" ++ String "010"%char "";
                                         "Scanning ec2" ++ String "010"%char ""] 0))
  /\ fst out = Val tt.
Proof.
  intros request a out.
  split; [reflexivity|]. split; [reflexivity|]. split; [reflexivity|].
  split; [reflexivity|].
  exact (proj1 (run_scan_no_services "5e6f7a8b" request plain_inputs a
                  (pending_job request "5e6f7a8b" 2000)
                  (Process ["Processing s3" ++ String "010"%char "";
                            "... 12 buckets" ++ String "010"%char "";
                            "Scanning ec2" ++ String "010"%char ""] 0)
                  eq_refl eq_refl eq_refl eq_refl eq_refl)).
Defined.

(** *** What a run spawns *)

(** The cases of a run from the spawning of the scanner on, each closed by
    [tac]. *)
Ltac run_cases id io tac :=
  destruct (popen io) as [?p|?e]; exec_all;
  [ loop_any id; cbv iota; exec_all;
    [ match goal with
      | |- context [returncode ?p =? 0] => destruct (returncode p =? 0)
      end; exec_all;
      [ destruct (reports_dir io) as [[?entries|]|?e]; exec_all;
        [ match goal with
          | |- context [find ?f ?l] => destruct (find f l)
          end; exec_all; tac
        | tac
        | tac ]
      | tac ]
    | tac ]
  | tac ].

(** What the state at the end of a case says of the processes spawned and
    of the handler. *)
Ltac effects :=
  cbn [snd writes spawned sso_handler with_sso with_spawned after_write];
  repeat match goal with
         | H : spawned _ = _ |- _ => rewrite H
         | H : sso_handler _ = _ |- _ => rewrite H
         end;
  cbn [snd writes spawned sso_handler with_sso with_spawned after_write env cmd].

(** X20: A run outside the SSO branch spawns the scanner exactly once, whatever
    [Popen] and the scanner then do: with the environment of the server,
    in which [AWS_PROFILE] is set to the request's profile when it names
    one, and with the regions and services joined by commas on the command
    line, the frameworks only when there are some.  The SSO handler is not
    touched and nothing is sent to the provider. *)
Theorem run_scan_profile_spawn id request io a j :
  PyDict.lookup id (scan_jobs a) = Some j ->
  sso_branch request io a = false ->
  let out := run_scan id request io a in
  exists args,
    spawned (snd out) = args :: spawned a
    /\ env args = match nonempty (aws_profile request) with
                  | Some profile => <["AWS_PROFILE" := profile]> (environ io)
                  | None => environ io
                  end
    /\ cmd args = ([sys_executable io; main_py io;
                    "--regions"; join "," (regions request);
                    "--services"; join "," (services request)]
                   ++ match frameworks request with
                      | Some (f :: fs) => ["--frameworks"; join "," (f :: fs)]
                      | _ => []
                      end)%list
    /\ sso_handler (snd out) = sso_handler a.
Proof.
  intros Hj Hsso out. subst out.
  enough (exists r a' args,
            run_scan id request io a = (r, a')
            /\ spawned a' = args :: spawned a
            /\ env args = match nonempty (aws_profile request) with
                          | Some profile => <["AWS_PROFILE" := profile]> (environ io)
                          | None => environ io
                          end
            /\ cmd args = ([sys_executable io; main_py io;
                            "--regions"; join "," (regions request);
                            "--services"; join "," (services request)]
                           ++ match frameworks request with
                              | Some (f :: fs) => ["--frameworks"; join "," (f :: fs)]
                              | _ => []
                              end)%list
            /\ sso_handler a' = sso_handler a)
    as (r & a' & args & -> & H); [exists args; exact H|].
  run_prefix Hsso;
    run_cases id io
      ltac:(eexists; eexists; eexists; split; [reflexivity|];
            split; [effects; reflexivity|];
            split; [reflexivity|];
            split; [destruct (frameworks request) as [[|? ?]|]; cbn [env cmd];
                    rewrite ?app_nil_r; reflexivity
                   | effects; reflexivity]).
Qed.

Lemma run_scan_profile_spawn_witness :
  let out := run_scan "1a2b3c4d" both_request plain_inputs submitted_app in
  PyDict.lookup "1a2b3c4d" (scan_jobs submitted_app)
  = Some (pending_job both_request "1a2b3c4d" 1000)
  /\ sso_branch both_request plain_inputs submitted_app = false
  /\ exists args,
       spawned (snd out) = args :: spawned submitted_app
       /\ env args = <["AWS_PROFILE" := "dev"]> (environ plain_inputs).
Proof.
  intros out. split; [reflexivity|]. split; [reflexivity|].
  destruct (run_scan_profile_spawn "1a2b3c4d" both_request plain_inputs submitted_app
              (pending_job both_request "1a2b3c4d" 1000) eq_refl eq_refl)
    as (args & H1 & H2 & _).
  exists args. split; [exact H1 | exact H2].
Defined.

(** X21: A run in the SSO branch with an account, a role and credentials from
    the provider: one credential request goes out, with the handler's token
    and the request's account and role; the scanner is spawned once, with
    the three credential variables set from the answer, without
    [AWS_PROFILE] (also when the server's environment or the request had
    one), and with the rest of the server's environment; the token and the
    device session of the handler are as before. *)
Theorem run_scan_sso_spawn id request io a j acct role cr :
  PyDict.lookup id (scan_jobs a) = Some j ->
  sso_branch request io a = true ->
  nonempty (sso_account_id request) = Some acct ->
  nonempty (sso_role_name request) = Some role ->
  credentials io = Answer cr ->
  let out := run_scan id request io a in
  exists args c,
    spawned (snd out) = args :: spawned a
    /\ env args !! "AWS_ACCESS_KEY_ID" = Some (accessKeyId cr)
    /\ env args !! "AWS_SECRET_ACCESS_KEY" = Some (secretAccessKey cr)
    /\ env args !! "AWS_SESSION_TOKEN" = Some (sessionToken cr)
    /\ env args !! "AWS_PROFILE" = None
    /\ (forall k,
          existsb (String.eqb k)
            ["AWS_ACCESS_KEY_ID"; "AWS_SECRET_ACCESS_KEY"; "AWS_SESSION_TOKEN";
             "AWS_PROFILE"] = false ->
          env args !! k = environ io !! k)
    /\ sent (sso_handler (snd out))
       = GetRoleCredentials c (access_token (sso (sso_handler a))) acct role
         :: sent (sso_handler a)
    /\ access_token (sso (sso_handler (snd out))) = access_token (sso (sso_handler a))
    /\ token_expiry (sso (sso_handler (snd out))) = token_expiry (sso (sso_handler a))
    /\ session (sso (sso_handler (snd out))) = session (sso (sso_handler a)).
Proof.
  intros Hj Hsso Ha Hr Hc out. subst out.
  enough (exists r a' c,
            run_scan id request io a = (r, a')
            /\ spawned a'
               = Popen ([sys_executable io; main_py io;
                         "--regions"; join "," (regions request);
                         "--services"; join "," (services request)]
                        ++ match frameworks request with
                           | Some (f :: fs) => ["--frameworks"; join "," (f :: fs)]
                           | _ => []
                           end)%list
                   (delete "AWS_PROFILE"
                      (<["AWS_SESSION_TOKEN" := sessionToken cr]>
                         (<["AWS_SECRET_ACCESS_KEY" := secretAccessKey cr]>
                            (<["AWS_ACCESS_KEY_ID" := accessKeyId cr]> (environ io)))))
                 :: spawned a
            /\ sso_handler a'
               = World (set_sso_client (Some c) (sso (sso_handler a)))
                   (GetRoleCredentials c (access_token (sso (sso_handler a))) acct role
                    :: sent (sso_handler a)))
    as (r & a' & c & -> & Hsp & Hh).
  { eexists. exists c. cbn [snd]. rewrite Hsp, Hh. cbn [env sso sent].
    split; [reflexivity|].
    split; [simplify_map_eq; reflexivity|].
    split; [simplify_map_eq; reflexivity|].
    split; [simplify_map_eq; reflexivity|].
    split; [simplify_map_eq; reflexivity|].
    split.
    { intros k Hk. cbn [existsb] in Hk.
      repeat (apply orb_false_iff in Hk as [?Hk Hk]).
      repeat match goal with
             | H : String.eqb k _ = false |- _ => apply String.eqb_neq in H
             end.
      simplify_map_eq. reflexivity. }
    repeat split. }
  assert (Ht : truthy (access_token (sso (sso_handler a))) = true).
  { unfold sso_branch in Hsso. apply andb_true_iff in Hsso as [_ Hsso].
    unfold is_authenticated in Hsso.
    destruct (access_token _) as [[|]|]; try discriminate. reflexivity. }
  unfold run_scan, catch. exec.
  pose proof Hsso as Hsso'. unfold sso_branch in Hsso'. rewrite Hsso'. clear Hsso'.
  exec. rewrite Ha, Hr. rewrite bind_assoc.
  match goal with
  | |- context [get_role_credentials acct role ?rg ?ans] =>
      destruct (get_role_credentials_token_spec acct role rg ans
                  (sso_handler a) Ht) as (c & h' & Hg & ->)
  end.
  erewrite bind_on_sso by exact Hg. rewrite Hc. exec_all.
  run_cases id io
    ltac:(eexists; eexists; exists c; split; [reflexivity|];
          split; [effects;
                  destruct (frameworks request) as [[|? ?]|]; rewrite ?app_nil_r;
                  reflexivity
                 | effects; reflexivity]).
Qed.

Lemma run_scan_sso_spawn_witness :
  let cr := RoleCredentials "AKIAEXAMPLE" "secret" "session" 7200 in
  let io := ScanInputs "/usr/bin/python3" "/opt/screener/main.py"
              (<["AWS_PROFILE" := "server"]> (<["HOME" := "/root"]> ∅)) (seconds 60)
              (Answer cr) (Answer (Process [] 0)) 5000 (Answer None) in
  let out := run_scan "1a2b3c4d" both_request io authorized_app in
  PyDict.lookup "1a2b3c4d" (scan_jobs authorized_app)
  = Some (pending_job both_request "1a2b3c4d" 1000)
  /\ sso_branch both_request io authorized_app = true
  /\ nonempty (sso_account_id both_request) = Some "111122223333"
  /\ nonempty (sso_role_name both_request) = Some "Auditor"
  /\ exists args,
       spawned (snd out) = args :: spawned authorized_app
       /\ env args !! "AWS_ACCESS_KEY_ID" = Some "AKIAEXAMPLE".
Proof.
  intros cr io out.
  split; [reflexivity|]. split; [reflexivity|]. split; [reflexivity|].
  split; [reflexivity|].
  destruct (run_scan_sso_spawn "1a2b3c4d" both_request io authorized_app
              (pending_job both_request "1a2b3c4d" 1000) "111122223333" "Auditor" cr
              eq_refl eq_refl eq_refl eq_refl eq_refl)
    as (args & c & H1 & H2 & _).
  exists args. split; [exact H1 | exact H2].
Defined.

(** ** The WebSocket loop and the list of reports *)

(** X22: What the WebSocket loop sends: each snapshot is the job's record as it
    stood at some turn of the loop, and a snapshot with a terminal status
    is the last one sent. *)
Theorem websocket_stops_at_terminal id ticks :
  let sent := websocket_scan_progress id ticks in
  (forall before j after,
     sent = (before ++ j :: after)%list -> is_terminal j = true -> after = [])
  /\ Forall (fun j => exists jobs, In jobs ticks /\ PyDict.lookup id jobs = Some j) sent.
Proof.
  cbv zeta. split.
  - induction ticks as [|jobs rest IH]; intros before j after Heq Ht.
    + destruct before; discriminate Heq.
    + cbn [websocket_scan_progress] in Heq.
      destruct (PyDict.lookup id jobs) as [j0|]; [|eapply IH; eassumption].
      destruct before as [|b before]; cbn [List.app] in Heq.
      * injection Heq as <- Heq. rewrite Ht in Heq. symmetry. exact Heq.
      * injection Heq as Hb Heq. subst b.
        destruct (is_terminal j0); [destruct before; discriminate Heq|].
        eapply IH; eassumption.
  - induction ticks as [|jobs rest IH]; cbn [websocket_scan_progress]; [constructor|].
    assert (IH' : Forall (fun j => exists jobs0, In jobs0 (jobs :: rest)
                                   /\ PyDict.lookup id jobs0 = Some j)
                    (websocket_scan_progress id rest)).
    { eapply List.Forall_impl; [|exact IH]. cbv beta.
      intros j (jobs0 & Hin & Hl). exists jobs0. split; [right; exact Hin | exact Hl]. }
    destruct (PyDict.lookup id jobs) as [j0|] eqn:E; [|exact IH'].
    constructor; [exists jobs; split; [left; reflexivity | exact E]|].
    destruct (is_terminal j0); [constructor | exact IH'].
Qed.

(** X23: The subscriber of a job that runs between two turns of the loop sees
    the job as it was before the run, then the terminal record, and nothing
    after it, however many turns would follow. *)
Theorem websocket_after_run id request io a j later :
  PyDict.lookup id (scan_jobs a) = Some j ->
  is_terminal j = false ->
  exists j',
    websocket_scan_progress id
      (scan_jobs a :: scan_jobs (snd (run_scan id request io a)) :: later)
    = [j; j']
    /\ is_terminal j' = true.
Proof.
  intros Hj Ht.
  destruct (run_scan_outcome id request io a j Hj) as (r & a' & E & _ & j' & Hl & Hst & _).
  rewrite E. cbn [snd].
  exists j'. cbn [websocket_scan_progress].
  assert (Ht' : is_terminal j' = true).
  { unfold is_terminal. destruct Hst as [(-> & _) | (-> & _)]; reflexivity. }
  rewrite Hj, Ht, Hl, Ht'. split; reflexivity.
Qed.

Lemma websocket_after_run_witness :
  PyDict.lookup "1a2b3c4d" (scan_jobs submitted_app)
  = Some (pending_job both_request "1a2b3c4d" 1000)
  /\ is_terminal (pending_job both_request "1a2b3c4d" 1000) = false
  /\ exists j',
       websocket_scan_progress "1a2b3c4d"
         [scan_jobs submitted_app;
          scan_jobs (snd (run_scan "1a2b3c4d" both_request plain_inputs submitted_app));
          scan_jobs submitted_app]
       = [pending_job both_request "1a2b3c4d" 1000; j']
       /\ is_terminal j' = true.
Proof.
  split; [reflexivity|]. split; [reflexivity|].
  exact (websocket_after_run "1a2b3c4d" both_request plain_inputs submitted_app
           (pending_job both_request "1a2b3c4d" 1000) [scan_jobs submitted_app]
           eq_refl eq_refl).
Defined.

(** *** [list_reports] *)

Lemma ltb_asym a b : String.ltb a b = true -> String.ltb b a = false.
Proof.
  unfold String.ltb. rewrite (String.compare_antisym a b).
  destruct (String.compare b a); cbn; congruence.
Qed.

Lemma insert_reverse_In {A} (key : A -> string) x l y :
  In y (insert_reverse key x l) <-> y = x \/ In y l.
Proof.
  induction l as [|z l IH]; cbn [insert_reverse].
  - cbn. intuition.
  - destruct (String.ltb (key x) (key z)); cbn [In]; [rewrite IH|]; intuition.
Qed.

Lemma sorted_reverse_In {A} (key : A -> string) l y :
  In y (sorted_reverse key l) <-> In y l.
Proof.
  induction l as [|x l IH]; cbn [sorted_reverse fold_right]; [reflexivity|].
  rewrite insert_reverse_In. fold (sorted_reverse key l). rewrite IH. cbn. intuition.
Qed.

Lemma insert_reverse_length {A} (key : A -> string) x l :
  length (insert_reverse key x l) = S (length l).
Proof.
  induction l as [|z l IH]; cbn [insert_reverse]; [reflexivity|].
  destruct (String.ltb (key x) (key z)); cbn [length]; [rewrite IH|]; reflexivity.
Qed.

Lemma sorted_reverse_length {A} (key : A -> string) l :
  length (sorted_reverse key l) = length l.
Proof.
  induction l as [|x l IH]; cbn [sorted_reverse fold_right]; [reflexivity|].
  rewrite insert_reverse_length. fold (sorted_reverse key l). rewrite IH. reflexivity.
Qed.

Lemma insert_reverse_descending {A} (key : A -> string) x l :
  descending_text (map key l) = true ->
  descending_text (map key (insert_reverse key x l)) = true.
Proof.
  induction l as [|z l IH]; intros H; [reflexivity|].
  cbn [insert_reverse]. destruct (String.ltb (key x) (key z)) eqn:E.
  - cbn [map]. specialize (IH ltac:(destruct l; [reflexivity|];
                                    cbn [map descending_text] in H;
                                    apply andb_true_iff in H; exact (proj2 H))).
    destruct l as [|z' l]; cbn [insert_reverse map descending_text] in *.
    + rewrite (ltb_asym _ _ E). reflexivity.
    + destruct (String.ltb (key x) (key z')) eqn:E'; cbn [map descending_text] in *.
      * apply andb_true_iff in H as [H1 _]. rewrite H1. exact IH.
      * rewrite (ltb_asym _ _ E). exact IH.
  - cbn [map descending_text]. cbn [map] in H. rewrite E. exact H.
Qed.

Lemma sorted_reverse_descending {A} (key : A -> string) l :
  descending_text (map key (sorted_reverse key l)) = true.
Proof.
  induction l as [|x l IH]; [reflexivity|].
  cbn [sorted_reverse fold_right]. apply insert_reverse_descending. exact IH.
Qed.

(** X24: [list_reports], when the listing of the report directory succeeds:
    the reports come most recent first; there is one for each entry that is
    a directory with an all-digit name and an [index.html], and no other;
    each carries the path of that [index.html] under [/reports]. *)
Theorem list_reports_most_recent_first entries :
  exists reports,
    list_reports (Answer (Some entries)) = Val reports
    /\ descending_text (map r_created_at reports) = true
    /\ (forall r, In r reports <-> exists d, In d entries /\ report_of d = Some r)
    /\ length reports
       = length (List.filter (fun d => match report_of d with
                                       | Some _ => true
                                       | None => false
                                       end) entries)
    /\ Forall (fun r => isdigit (r_account_id r) = true
                        /\ r_path r = "/reports/" ++ r_account_id r ++ "/index.html")
         reports.
Proof.
  eexists. split; [reflexivity|].
  split; [apply sorted_reverse_descending|].
  assert (Hin : forall r,
            In r (sorted_reverse r_created_at
                    (flat_map (fun d =>
                       if (re_is_dir d && isdigit (re_name d))%bool then
                         match re_index d with
                         | Some mtime =>
                             [Report (re_name d)
                                ("/reports/" ++ re_name d ++ "/index.html") mtime]
                         | None => []
                         end
                       else []) entries))
            <-> exists d, In d entries /\ report_of d = Some r).
  { intros r. rewrite sorted_reverse_In, in_flat_map. unfold report_of.
    split; intros (d & Hd & H); exists d; (split; [exact Hd|]).
    - destruct (re_is_dir d && isdigit (re_name d))%bool; [|contradiction].
      destruct (re_index d); [|contradiction].
      destruct H as [<-|[]]. reflexivity.
    - destruct (re_is_dir d && isdigit (re_name d))%bool; [|discriminate].
      destruct (re_index d); [|discriminate].
      injection H as <-. left. reflexivity. }
  split; [exact Hin|]. split.
  - clear Hin. rewrite sorted_reverse_length. unfold report_of.
    induction entries as [|d entries IH]; [reflexivity|].
    cbn [flat_map List.filter]. rewrite length_app.
    destruct (re_is_dir d && isdigit (re_name d))%bool;
      [destruct (re_index d)|]; cbn; rewrite IH; reflexivity.
  - apply List.Forall_forall. intros r Hr. apply Hin in Hr as (d & _ & Hd).
    unfold report_of in Hd.
    destruct (re_is_dir d && isdigit (re_name d))%bool eqn:E; [|discriminate].
    destruct (re_index d); [|discriminate]. injection Hd as <-. cbn.
    apply andb_true_iff in E. split; [exact (proj2 E) | reflexivity].
Qed.

(** ** Submissions and the job table *)

(** X25: What a submission does to the table.  Under a job id that is new the
    record goes to the end of the list of scans; under a job id that is
    in the table already (the ids are eight characters of a random UUID) it
    takes the place of the earlier job's record, whose state is lost, and
    the list keeps its length and order.  The other jobs, the handler and
    the processes are untouched. *)
Theorem start_scan_table request job_id now a :
  let a' := snd (start_scan request job_id now a) in
  (get_scan_status job_id a = None ->
   list_scans a' = (list_scans a ++ [pending_job request job_id now])%list)
  /\ (get_scan_status job_id a <> None ->
      PyDict.keys (scan_jobs a') = PyDict.keys (scan_jobs a)
      /\ length (list_scans a') = length (list_scans a)
      /\ get_scan_status job_id a' = Some (pending_job request job_id now))
  /\ (forall k, k <> job_id -> get_scan_status k a' = get_scan_status k a)
  /\ sso_handler a' = sso_handler a
  /\ spawned a' = spawned a
  /\ writes a' = writes a.
Proof.
  intros a'. subst a'. rewrite start_scan_eq. cbn [snd].
  unfold get_scan_status, list_scans. cbn [scan_jobs sso_handler spawned writes].
  split.
  { intros H. rewrite (setitem_new _ _ _ H). unfold PyDict.values.
    rewrite map_app. reflexivity. }
  split.
  { intros H. pose proof (setitem_keys_present job_id
                            (pending_job request job_id now) (scan_jobs a) H) as Hk.
    split; [exact Hk|]. split; [|apply lookup_setitem_eq].
    unfold PyDict.values. rewrite !length_map.
    apply (f_equal (@length string)) in Hk. unfold PyDict.keys in Hk.
    rewrite !length_map in Hk. exact Hk. }
  split; [|repeat split].
  intros k Hk. apply lookup_setitem_ne. congruence.
Qed.

(** ** The progress of a run never goes down *)

Lemma non_decreasing_cons a b r :
  a <= b -> non_decreasing (b :: r) = true -> non_decreasing (a :: b :: r) = true.
Proof.
  intros H1 H2. cbn [non_decreasing] in *. rewrite H2.
  apply Z.leb_le in H1. rewrite H1. reflexivity.
Qed.

Lemma non_decreasing_app l1 l2 :
  non_decreasing l1 = true -> non_decreasing l2 = true ->
  (forall x y, In x l1 -> In y l2 -> x <= y) ->
  non_decreasing (l1 ++ l2) = true.
Proof.
  induction l1 as [|a l1 IH]; intros H1 H2 Hc; [exact H2|].
  destruct l1 as [|b l1].
  - destruct l2 as [|y l2]; [reflexivity|].
    cbn [List.app]. apply non_decreasing_cons; [|exact H2].
    apply Hc; left; reflexivity.
  - cbn [non_decreasing] in H1. apply andb_true_iff in H1 as [Hab H1].
    change ((a :: b :: l1) ++ l2)%list with (a :: (b :: l1) ++ l2)%list.
    cbn [List.app]. apply non_decreasing_cons; [apply Z.leb_le; exact Hab|].
    apply IH; [exact H1 | exact H2|].
    intros x y Hx Hy. apply Hc; [right; exact Hx | exact Hy].
Qed.

Lemma counters_In k m i : In i (counters k m) <-> k < i <= k + Z.of_nat m.
Proof.
  unfold counters. rewrite in_map_iff. split.
  - intros (x & <- & Hx). apply in_seq in Hx. lia.
  - intros H. exists (Z.to_nat (i - k)). split; [lia|]. apply in_seq. lia.
Qed.

Lemma loop_values_non_decreasing n m : forall k,
  0 < n ->
  non_decreasing (flat_map (fun i => [exact_progress i n; exact_progress i n])
                    (counters k m)) = true.
Proof.
  induction m as [|m IH]; intros k Hn; [reflexivity|].
  rewrite counters_S. cbn [flat_map List.app].
  apply non_decreasing_cons; [lia|].
  specialize (IH (k + 1) Hn).
  destruct m as [|m]; [reflexivity|].
  rewrite counters_S in *. cbn [flat_map List.app] in *.
  apply non_decreasing_cons; [|exact IH].
  apply exact_progress_mono; lia.
Qed.

(** The progress values of a run that reaches the end of the loop: those of
    the preparation, those of the loop, and what follows. *)
Lemma progress_trace_non_decreasing n m pj pp suf :
  0 < n -> 0 <= m -> pj <= 5 ->
  pp = (if m =? 0 then 10 else exact_progress (0 + m) n) ->
  non_decreasing suf = true ->
  Forall (fun y => y = pp \/ y = 100) suf ->
  non_decreasing
    ([pj; pj; 5; 5; 10]
     ++ flat_map (fun i => [exact_progress i n; exact_progress i n])
          (counters 0 (Z.to_nat m))
     ++ pp :: suf) = true.
Proof.
  intros Hn Hm Hpj Hpp Hsuf Hall.
  assert (Hpp10 : 10 <= pp <= 90).
  { subst pp. destruct (m =? 0); [lia|].
    split; [apply exact_progress_ge_10; lia | apply exact_progress_le_90]. }
  assert (Htail : non_decreasing (pp :: suf) = true).
  { destruct suf as [|y suf]; [reflexivity|].
    apply non_decreasing_cons; [|exact Hsuf].
    apply List.Forall_inv in Hall. lia. }
  assert (Hmid : forall y,
            In y (flat_map (fun i => [exact_progress i n; exact_progress i n])
                    (counters 0 (Z.to_nat m))) ->
            10 <= y <= pp).
  { intros y Hy. apply in_flat_map in Hy as (i & Hi & Hy).
    apply counters_In in Hi.
    assert (y = exact_progress i n) by (destruct Hy as [<-|[<-|[]]]; reflexivity).
    subst y. split; [apply exact_progress_ge_10; lia|].
    subst pp. replace (m =? 0) with false by (symmetry; apply Z.eqb_neq; lia).
    apply exact_progress_mono; lia. }
  assert (Hsuf' : forall y, In y (pp :: suf) -> pp <= y <= 100).
  { intros y [<-|Hy]; [lia|].
    rewrite List.Forall_forall in Hall. destruct (Hall y Hy); lia. }
  apply non_decreasing_app.
  - repeat (apply non_decreasing_cons; [lia|]). reflexivity.
  - apply non_decreasing_app; [apply loop_values_non_decreasing; exact Hn | exact Htail|].
    intros x y Hx Hy. apply Hmid in Hx. apply Hsuf' in Hy. lia.
  - intros x y Hx Hy.
    assert (x <= 10) by (cbn in Hx; intuition lia).
    apply in_app_or in Hy as [Hy|Hy]; [apply Hmid in Hy | apply Hsuf' in Hy]; lia.
Qed.

(** The end of a case: the progress values recorded, by
    [progress_trace_non_decreasing]. *)
Ltac trace_fin :=
  eexists; eexists; eexists; split; [reflexivity|]; split; [suffix|];
  cbn [List.rev]; rewrite rev_app_distr, !map_app;
  match goal with Q : map progress (List.rev _) = _ |- _ => rewrite Q end;
  rewrite <- !app_assoc;
  cbn [List.rev List.app map progress set_progress set_current_task set_status
         set_completed_at set_report_path set_error];
  apply progress_trace_non_decreasing;
  [ lia | assumption | assumption
  | match goal with P : _ = (if _ =? 0 then _ else _) |- _ => exact P end
  | reflexivity
  | repeat (constructor; [first [left; reflexivity | right; reflexivity]|]);
    constructor ].

(** X26: The progress values that a run outside the SSO branch records for a job
    whose progress is at most 5 when it starts (a submission sets 0) never
    go down, up to 100 services and 200 marker lines, whatever the exit
    status of the scanner and whatever the look into the report directory
    gives. *)
Theorem run_scan_progress_non_decreasing id request io a j p :
  PyDict.lookup id (scan_jobs a) = Some j ->
  progress j <= 5 ->
  sso_branch request io a = false ->
  popen io = Answer p ->
  1 <= Z.of_nat (length (services request)) <= Z.of_nat max_services ->
  markers (stdout_lines p) <= Z.of_nat max_markers ->
  non_decreasing
    (map progress
       (written_since (writes a) (writes (snd (run_scan id request io a))))) = true.
Proof.
  intros Hj Hpj Hsso Hp Hn Hm.
  enough (exists r a' l,
            run_scan id request io a = (r, a')
            /\ writes a' = (l ++ writes a)%list
            /\ non_decreasing (map progress (List.rev l)) = true)
    as (r & a' & l & -> & W & H).
  { cbn [snd]. rewrite W, written_since_app. exact H. }
  pose proof (markers_nonneg (stdout_lines p)) as Hm0.
  run_prefix Hsso;
    (rewrite Hp; exec; loop id;
     destruct (returncode p =? 0); exec_all;
     [ destruct (reports_dir io) as [[entries|]|e]; exec_all;
       [ destruct (find _ entries); exec_all; trace_fin
       | trace_fin
       | trace_fin ]
     | trace_fin ]).
Qed.

Lemma run_scan_progress_non_decreasing_witness :
  let out := run_scan "5e6f7a8b" profile_request plain_inputs profile_app in
  PyDict.lookup "5e6f7a8b" (scan_jobs profile_app)
  = Some (pending_job profile_request "5e6f7a8b" 2000)
  /\ progress (pending_job profile_request "5e6f7a8b" 2000) <= 5
  /\ sso_branch profile_request plain_inputs profile_app = false
  /\ map progress (written_since (writes profile_app) (writes (snd out)))
     = [0; 0; 5; 5; 10; 50; 50; 90; 90; 90; 100; 100; 100; 100]
  /\ non_decreasing
       (map progress (written_since (writes profile_app) (writes (snd out)))) = true.
Proof.
  intros out. split; [reflexivity|]. split; [vm_compute; discriminate|].
  split; [reflexivity|]. split; [reflexivity|].
  exact (run_scan_progress_non_decreasing "5e6f7a8b" profile_request plain_inputs
           profile_app (pending_job profile_request "5e6f7a8b" 2000)
           (Process ["Processing s3" ++ String "010"%char "";
                     "... 12 buckets" ++ String "010"%char "";
                     "Scanning ec2" ++ String "010"%char ""] 0)
           eq_refl ltac:(vm_compute; discriminate) eq_refl eq_refl
           ltac:(vm_compute; split; discriminate)
           ltac:(vm_compute; discriminate)).
Defined.

(** ** The SSO endpoints never raise *)


